(** * DD-Net training driver ([DD-Net-Pytorch/train.py])

    A shallow embedding of the orchestration code of [train.py]: the training
    pass [train], the evaluation pass [test], the plateau scheduler driven by
    [main], the history dictionary, the command line, and the order in which
    [main] touches its collaborators.

    Numbers.  Python integers are [Z].  Python floats (loss values, learning
    rates) are modelled by exact rationals [Q]: every finite float is a
    rational, and the order and the arithmetic identities used below are the
    exact ones; rounding of float additions is outside the model.  Where the
    rounding decides a property, for the loss that the evaluation pass adds
    up, the arithmetic is a parameter, instantiated with the rationals and
    with IEEE 754 binary32 and binary64.

    Opaque collaborators (the network, the loss, the optimizer, the dataset
    loaders) are section variables: the results hold for every choice. *)

From Stdlib Require Import Ascii String DecimalString.
From Stdlib Require DecimalPos DecimalZ.
From Stdlib Require Import SpecFloat.
From Stdlib Require Import ZArith QArith Qminmax List Bool Lia Lqa.
Import ListNotations.

Local Open Scope Q_scope.

(** ** Comparisons on floats, as booleans *)

Definition Qltb (x y : Q) : bool := negb (Qle_bool y x).

(** ** The plateau scheduler *)

Module Scheduler.

(** Modelled from the spec: the class [ReduceLROnPlateau] that [main]
    instantiates (train.py, lines 238-239) and steps (line 244) is library
    code, absent from the sources.  The model follows section 4.3 of the
    specification (state [current_lr], [best_loss_so_far],
    [epochs_since_improvement], [cooldown_remaining]; improvement beyond a
    negligible threshold; reduction by a factor floored at a minimum rate;
    cooldown that decrements on each call) with the library's field names and
    its defaults for what [main] leaves unset: mode [min], relative threshold
    [1e-4], and [eps = 1e-8] below which a change of rate is not applied.
    As in the library, a call first compares the metric with the best one,
    then lets a running cooldown cancel the count of stalled epochs, then
    tests the patience. *)
Record Config := mkConfig {
  factor : Q;
  patience : Z;
  cooldown : Q;
  min_lr : Q;
  threshold : Q;
  eps : Q
}.

(** [best = None] is the initial "worse than everything" value (+infinity
    in mode [min]). *)
Record State := mkState {
  lr : Q;
  best : option Q;
  num_bad_epochs : Z;
  cooldown_counter : Q;
  last_epoch : Z
}.

(** The scheduler as [main] builds it:
    [ReduceLROnPlateau(optimizer, factor=args.gamma, patience=5,
                       cooldown=0.5, min_lr=5e-6, verbose=True)]. *)
Definition train_config (gamma : Q) : Config :=
  {| factor := gamma;
     patience := 5;
     cooldown := 1 # 2;
     min_lr := 5 # 1000000;
     threshold := 1 # 10000;
     eps := 1 # 100000000 |}.

(** Construction rejects a factor of 1 or more ([ValueError]). *)
Definition init (c : Config) (lr0 : Q) : option State :=
  if Qle_bool 1 (factor c) then None
  else Some {| lr := lr0; best := None; num_bad_epochs := 0;
               cooldown_counter := 0; last_epoch := 0 |}.

Definition is_better (c : Config) (a : Q) (b : option Q) : bool :=
  match b with
  | None => true
  | Some b => Qltb a (b * (1 - threshold c))
  end.

Definition in_cooldown (s : State) : bool := Qltb 0 (cooldown_counter s).

(** [_reduce_lr]: the new rate is the product floored at [min_lr]; it is
    applied only when it lowers the rate by more than [eps]. *)
Definition reduce_lr (c : Config) (old_lr : Q) : Q :=
  let new_lr := Qmax (old_lr * factor c) (min_lr c) in
  if Qltb (eps c) (old_lr - new_lr) then new_lr else old_lr.

(** The bookkeeping of [step] before the patience test. *)
Definition observe (c : Config) (s : State) (metrics : Q) : State :=
  let s1 :=
    if is_better c metrics (best s)
    then {| lr := lr s; best := Some metrics; num_bad_epochs := 0;
            cooldown_counter := cooldown_counter s;
            last_epoch := last_epoch s + 1 |}
    else {| lr := lr s; best := best s;
            num_bad_epochs := num_bad_epochs s + 1;
            cooldown_counter := cooldown_counter s;
            last_epoch := last_epoch s + 1 |} in
  if in_cooldown s1
  then {| lr := lr s1; best := best s1; num_bad_epochs := 0;
          cooldown_counter := cooldown_counter s1 - 1;
          last_epoch := last_epoch s1 |}
  else s1.

(** Does this call reach [_reduce_lr]? *)
Definition fires (c : Config) (s : State) (metrics : Q) : bool :=
  (patience c <? num_bad_epochs (observe c s metrics))%Z.

Definition step (c : Config) (s : State) (metrics : Q) : State :=
  let s2 := observe c s metrics in
  if (patience c <? num_bad_epochs s2)%Z
  then {| lr := reduce_lr c (lr s2); best := best s2; num_bad_epochs := 0;
          cooldown_counter := cooldown c; last_epoch := last_epoch s2 |}
  else s2.

(** One call per epoch, in order. *)
Definition run (c : Config) (s : State) (ms : list Q) : State :=
  fold_left (step c) ms s.

(** The number of calls among [ms] that reach [_reduce_lr]. *)
Fixpoint reductions (c : Config) (s : State) (ms : list Q) : nat :=
  match ms with
  | [] => 0
  | m :: ms' =>
      (if fires c s m then 1 else 0) + reductions c (step c s m) ms'
  end%nat.

End Scheduler.

(** ** The command line *)

(** The namespace that [parser.parse_args()] returns. *)
Record Args := mkArgs {
  batch_size : Z;
  test_batch_size : Z;
  epochs : Z;
  lr : Q;
  gamma : Q;
  no_cuda : bool;
  dry_run : bool;
  log_interval : Z;
  save_model : bool;
  dataset : Z;
  model : bool;
  calc_time : bool
}.

(** One recognised occurrence on the command line, with its converted
    value; [OptHelp] is argparse's built-in [-h], [OptUnrecognized] any token
    that no declared option accepts. *)
Inductive cli_opt :=
| OptBatchSize (n : Z)
| OptTestBatchSize (n : Z)
| OptEpochs (n : Z)
| OptLr (x : Q)
| OptGamma (x : Q)
| OptNoCuda
| OptDryRun
| OptLogInterval (n : Z)
| OptSaveModel
| OptDataset (n : Z)
| OptModel
| OptCalcTime
| OptHelp
| OptUnrecognized.

(** The declared defaults (train.py, lines 103-128); [--dataset] is
    required and has none. *)
Definition defaults (d : Z) : Args :=
  {| batch_size := 64; test_batch_size := 1000; epochs := 199;
     lr := 1 # 100; gamma := 1 # 2; no_cuda := false; dry_run := false;
     log_interval := 2; save_model := true; dataset := d; model := false;
     calc_time := false |}.

(** The action of one occurrence: [store] for valued options, [store_true]
    for flags. *)
Definition store (a : Args) (o : cli_opt) : Args :=
  match o with
  | OptBatchSize n =>
      mkArgs n (test_batch_size a) (epochs a) (lr a) (gamma a) (no_cuda a)
        (dry_run a) (log_interval a) (save_model a) (dataset a) (model a)
        (calc_time a)
  | OptTestBatchSize n =>
      mkArgs (batch_size a) n (epochs a) (lr a) (gamma a) (no_cuda a)
        (dry_run a) (log_interval a) (save_model a) (dataset a) (model a)
        (calc_time a)
  | OptEpochs n =>
      mkArgs (batch_size a) (test_batch_size a) n (lr a) (gamma a) (no_cuda a)
        (dry_run a) (log_interval a) (save_model a) (dataset a) (model a)
        (calc_time a)
  | OptLr x =>
      mkArgs (batch_size a) (test_batch_size a) (epochs a) x (gamma a)
        (no_cuda a) (dry_run a) (log_interval a) (save_model a) (dataset a)
        (model a) (calc_time a)
  | OptGamma x =>
      mkArgs (batch_size a) (test_batch_size a) (epochs a) (lr a) x
        (no_cuda a) (dry_run a) (log_interval a) (save_model a) (dataset a)
        (model a) (calc_time a)
  | OptNoCuda =>
      mkArgs (batch_size a) (test_batch_size a) (epochs a) (lr a) (gamma a)
        true (dry_run a) (log_interval a) (save_model a) (dataset a)
        (model a) (calc_time a)
  | OptDryRun =>
      mkArgs (batch_size a) (test_batch_size a) (epochs a) (lr a) (gamma a)
        (no_cuda a) true (log_interval a) (save_model a) (dataset a)
        (model a) (calc_time a)
  | OptLogInterval n =>
      mkArgs (batch_size a) (test_batch_size a) (epochs a) (lr a) (gamma a)
        (no_cuda a) (dry_run a) n (save_model a) (dataset a) (model a)
        (calc_time a)
  | OptSaveModel =>
      mkArgs (batch_size a) (test_batch_size a) (epochs a) (lr a) (gamma a)
        (no_cuda a) (dry_run a) (log_interval a) true (dataset a) (model a)
        (calc_time a)
  | OptDataset n =>
      mkArgs (batch_size a) (test_batch_size a) (epochs a) (lr a) (gamma a)
        (no_cuda a) (dry_run a) (log_interval a) (save_model a) n (model a)
        (calc_time a)
  | OptModel =>
      mkArgs (batch_size a) (test_batch_size a) (epochs a) (lr a) (gamma a)
        (no_cuda a) (dry_run a) (log_interval a) (save_model a) (dataset a)
        true (calc_time a)
  | OptCalcTime =>
      mkArgs (batch_size a) (test_batch_size a) (epochs a) (lr a) (gamma a)
        (no_cuda a) (dry_run a) (log_interval a) (save_model a) (dataset a)
        (model a) true
  | OptHelp | OptUnrecognized => a
  end.

Definition is_dataset (o : cli_opt) : bool :=
  match o with OptDataset _ => true | _ => false end.

Definition is_help (o : cli_opt) : bool :=
  match o with OptHelp => true | _ => false end.

Definition is_unrecognized (o : cli_opt) : bool :=
  match o with OptUnrecognized => true | _ => false end.

(** The occurrences that argparse consumes: all of them, or those before
    the first [-h], which prints the usage and leaves with status 0. *)
Fixpoint before_help (argv : list cli_opt) : list cli_opt * bool :=
  match argv with
  | [] => ([], false)
  | o :: rest =>
      if is_help o then ([], true)
      else let '(l, h) := before_help rest in (o :: l, h)
  end.

(** [parse_args]: the namespace, or the status the parser leaves with
    (2 for a missing [--dataset] or an unrecognised token). *)
Definition parse_args (argv : list cli_opt) : Args + Z :=
  let '(seen, help) := before_help argv in
  if help then inr 0%Z
  else if negb (existsb is_dataset seen) then inr 2%Z
  else if existsb is_unrecognized seen then inr 2%Z
  else inl (fold_left store seen (defaults 0)).

(** ** Collaborators, events and the world *)

Inductive device := Cpu | Cuda.

Definition device_eqb (a b : device) : bool :=
  match a, b with
  | Cpu, Cpu | Cuda, Cuda => true
  | _, _ => false
  end.

(** The opaque collaborators of the driver.  A batch is the list of its
    examples; a score vector has one rational per class. *)
Class Collaborators := {
  (** the parameters of the network together with the optimizer's moments *)
  params : Type;
  example : Type;
  (** the [target] entry of an example *)
  label : example -> Z;
  (** [model(M, P)] in training mode, on a whole batch *)
  forward_train : params -> list example -> list (list Q);
  (** [nn.CrossEntropyLoss()] of [main]: a scalar for the batch *)
  criterion : list (list Q) -> list Z -> Q;
  (** [loss.backward(); optimizer.step()] at the optimizer's current rate *)
  backward_step : Q -> params -> list example -> params;
  (** [model(M, P)] in evaluation mode: the scores of one example, which
      depend on nothing but the parameters and the example *)
  forward_eval : params -> example -> list Q;
  (** the term of one example in [nn.CrossEntropyLoss(reduction='sum')] *)
  cross_entropy : list Q -> Z -> Q;
  (** the order in which the seeded generator presents the training set in
      a given epoch *)
  shuffle : Z -> list example -> list example
}.

(** What the driver prints or logs; the formatted text is not modelled,
    the values it is formatted from are. *)
Inductive message :=
| MsgArgs (a : Args)
| MsgCudaInitTest
| MsgUnsupportedDataset
| MsgCudaInfo
| MsgRule
| MsgCudaDebug
| MsgParameterDevice (d : device)
| MsgTrainEpoch (epoch batch_idx : Z) (loss : Q)
| MsgTestSet (test_loss : Q) (correct n : Z)
| MsgReducingLR (new_lr : Q)
| MsgSaved (path : string)
| MsgTimingOn (d : device)
| MsgModelMoved (d : device)
| MsgInputsMoved (d : device)
| MsgTotal (d : device)
| MsgModelRestored (d : device).

(** The effects of the driver on its surroundings, in program order. *)
Inductive event :=
| EvMakedir (path : string)
| EvLogOpen (path : string)
| EvPrint (m : message)
| EvLogInfo (m : message)
| EvCudaAlloc
| EvCudaFree
| EvCudaEmptyCache
| EvSeedGenerator
| EvLoadData (selector : Z)
| EvGenerateTrain
| EvGenerateTest
| EvBuildModel
| EvModelTo (d : device)
| EvBuildOptimizer
| EvBuildScheduler
| EvTrainMode
| EvEvalMode
| EvToDevice (d : device) (batch_idx : Z)
| EvZeroGrad
| EvForward
| EvLoss
| EvBackward
| EvOptimizerStep
| EvPlot
| EvSavefig (path : string)
| EvMakedirs (path : string)
| EvSaveCheckpoint (path : string)
| EvInputsTo (d : device)
| EvSynchronize
| EvPerfCounter.

(** The module-level dictionary [history]. *)
Record History := mkHistory {
  train_loss : list Q;
  test_loss : list Q;
  test_acc : list Q
}.

Definition history0 : History :=
  {| train_loss := []; test_loss := []; test_acc := [] |}.

Inductive exn :=
| ZeroDivisionError
| ValueError
| RuntimeError
| CudaUnavailable.

(** How a computation leaves: normally, by an uncaught exception, or by
    [sys.exit]. *)
Inductive outcome (A : Type) :=
| Ok (a : A)
| Raise (e : exn)
| Exit (status : Z).

Arguments Ok {A} a.
Arguments Raise {A} e.
Arguments Exit {A} status.

Section Driver.

Context `{C : Collaborators}.

(** Everything the driver mutates: the model, the device it lives on, the
    history, and the record of effects so far. *)
Record World := mkWorld {
  net : params;
  net_device : device;
  history : History;
  trace : list event
}.

(** A computation threads the world and may leave early; the world at the
    point of leaving is kept. *)
Definition M (A : Type) : Type := World -> World * outcome A.

Definition ret {A} (a : A) : M A := fun w => (w, Ok a).

Definition bind {A B} (m : M A) (k : A -> M B) : M B :=
  fun w =>
    match m w with
    | (w', Ok a) => k a w'
    | (w', Raise e) => (w', Raise e)
    | (w', Exit s) => (w', Exit s)
    end.

Definition raise {A} (e : exn) : M A := fun w => (w, Raise e).

Definition sys_exit {A} (status : Z) : M A := fun w => (w, Exit status).

Definition emit (e : event) : M unit :=
  fun w => (mkWorld (net w) (net_device w) (history w) (trace w ++ [e]), Ok tt).

Definition get_net : M params := fun w => (w, Ok (net w)).

Definition set_net (p : params) : M unit :=
  fun w => (mkWorld p (net_device w) (history w) (trace w), Ok tt).

Definition get_device : M device := fun w => (w, Ok (net_device w)).

Definition set_device (d : device) : M unit :=
  fun w => (mkWorld (net w) d (history w) (trace w), Ok tt).

Definition get_history : M History := fun w => (w, Ok (history w)).

Definition set_history (h : History) : M unit :=
  fun w => (mkWorld (net w) (net_device w) h (trace w), Ok tt).

End Driver.

Declare Scope driver_scope.
Delimit Scope driver_scope with driver.

Notation "x <- m ;; k" := (bind m (fun x => k))
  (at level 61, m at next level, right associativity) : driver_scope.
Notation "m ;; k" := (bind m (fun _ => k))
  (at level 61, right associativity) : driver_scope.

Local Open Scope driver_scope.

(** ** Data loaders *)

(** Consecutive slices of [n] elements, the last one possibly shorter; at
    most [fuel] of them. *)
Fixpoint chunks {A : Type} (fuel n : nat) (l : list A) : list (list A) :=
  match fuel with
  | O => []
  | S fuel' =>
      match l with
      | [] => []
      | _ :: _ => firstn n l :: chunks fuel' n (skipn n l)
      end
  end.

Section Loops.

Context `{C : Collaborators}.

(** [torch.utils.data.DataLoader(dataset, batch_size=..., shuffle=...)]. *)
Record DataLoader := mkLoader {
  loader_dataset : list example;
  loader_batch_size : Z;
  loader_shuffle : bool
}.

(** The constructor refuses a batch size that is not positive. *)
Definition make_loader (ds : list example) (bs : Z) (sh : bool)
  : M DataLoader :=
  if (bs <=? 0)%Z then raise ValueError else ret (mkLoader ds bs sh).

(** The batches one iteration over the loader yields. *)
Definition batches (l : DataLoader) (epoch : Z) : list (list example) :=
  let ds := if loader_shuffle l then shuffle epoch (loader_dataset l)
            else loader_dataset l in
  chunks (length ds) (Z.to_nat (loader_batch_size l)) ds.

(** ** The training pass (train.py, lines 37-71) *)

(** The body of the loop up to [optimizer.step()]; returns
    [loss.detach().item()]. *)
Definition train_batch (dev : device) (rate : Q) (batch_idx : Z)
    (b : list example) : M Q :=
  emit (EvToDevice dev batch_idx) ;;
  emit EvZeroGrad ;;
  p <- get_net ;;
  let output := forward_train p b in
  emit EvForward ;;
  let loss := criterion output (map label b) in
  emit EvLoss ;;
  emit EvBackward ;;
  set_net (backward_step rate p b) ;;
  emit EvOptimizerStep ;;
  ret loss.

(** [for batch_idx, (data1, data2, target) in enumerate(tqdm(train_loader))]
    from index [batch_idx] on, with the running [train_loss]. *)
Fixpoint train_loop (args : Args) (dev : device) (rate : Q) (epoch : Z)
    (batch_idx : Z) (bs : list (list example)) (train_loss : Q) : M Q :=
  match bs with
  | [] => ret train_loss
  | b :: rest =>
      loss <- train_batch dev rate batch_idx b ;;
      let train_loss := train_loss + loss in
      if (log_interval args =? 0)%Z then raise ZeroDivisionError
      else if (batch_idx mod log_interval args =? 0)%Z then
        emit (EvPrint (MsgTrainEpoch epoch batch_idx loss)) ;;
        emit (EvLogInfo (MsgTrainEpoch epoch batch_idx loss)) ;;
        if dry_run args then ret train_loss
        else train_loop args dev rate epoch (batch_idx + 1) rest train_loss
      else train_loop args dev rate epoch (batch_idx + 1) rest train_loss
  end.

Definition append_train_loss (x : Q) : M unit :=
  h <- get_history ;;
  set_history (mkHistory (train_loss h ++ [x]) (test_loss h) (test_acc h)).

Definition append_test_loss (x : Q) : M unit :=
  h <- get_history ;;
  set_history (mkHistory (train_loss h) (test_loss h ++ [x]) (test_acc h)).

Definition append_test_acc (x : Q) : M unit :=
  h <- get_history ;;
  set_history (mkHistory (train_loss h) (test_loss h) (test_acc h ++ [x])).

(** One pass over an iterable of batches. *)
Definition train_pass (args : Args) (dev : device) (rate : Q)
    (bs : list (list example)) (epoch : Z) : M Q :=
  emit EvTrainMode ;;
  train_loss <- train_loop args dev rate epoch 0 bs 0 ;;
  append_train_loss train_loss ;;
  ret train_loss.

(** [train(args, model, device, train_loader, optimizer, epoch, criterion)];
    [rate] is the rate of the optimizer. *)
Definition train (args : Args) (dev : device) (rate : Q)
    (train_loader : DataLoader) (epoch : Z) : M Q :=
  train_pass args dev rate (batches train_loader epoch) epoch.

(** ** The evaluation pass (train.py, lines 73-98) *)

(** The index of the first maximum of a row of scores. *)
Fixpoint argmax_from (i best_i : nat) (best_v : Q) (l : list Q) : nat :=
  match l with
  | [] => best_i
  | x :: rest =>
      if Qltb best_v x then argmax_from (S i) i x rest
      else argmax_from (S i) best_i best_v rest
  end.

Definition argmax (l : list Q) : option nat :=
  match l with
  | [] => None
  | x :: rest => Some (argmax_from 1 0 x rest)
  end.

(** [output.argmax(dim=1, keepdim=True)]; an empty class dimension is an
    error. *)
Fixpoint argmax_rows (output : list (list Q)) : option (list Z) :=
  match output with
  | [] => Some []
  | row :: rest =>
      match argmax row, argmax_rows rest with
      | Some i, Some js => Some (Z.of_nat i :: js)
      | _, _ => None
      end
  end.

(** [nn.CrossEntropyLoss(reduction='sum')(output, target)]. *)
Definition criterion_sum (output : list (list Q)) (target : list Z) : Q :=
  fold_right Qplus 0
    (map (fun ot => cross_entropy (fst ot) (snd ot)) (combine output target)).

(** [pred.eq(target.view_as(pred)).sum().item()]. *)
Definition count_eq (pred target : list Z) : Z :=
  Z.of_nat
    (length (filter (fun pt => (fst pt =? snd pt)%Z) (combine pred target))).

(** The loop of [test] from batch [batch_idx] on, with the running
    [test_loss] and [correct]. *)
Fixpoint test_loop (dev : device) (batch_idx : Z) (bs : list (list example))
    (test_loss : Q) (correct : Z) : M (Q * Z) :=
  match bs with
  | [] => ret (test_loss, correct)
  | b :: rest =>
      emit (EvToDevice dev batch_idx) ;;
      p <- get_net ;;
      let output := map (forward_eval p) b in
      emit EvForward ;;
      let target := map label b in
      let test_loss := test_loss + criterion_sum output target in
      emit EvLoss ;;
      match argmax_rows output with
      | None => raise RuntimeError
      | Some pred =>
          test_loop dev (batch_idx + 1) rest test_loss
            (correct + count_eq pred target)
      end
  end.

(** [test(model, device, test_loader)]. *)
Definition test (dev : device) (test_loader : DataLoader) : M unit :=
  emit EvEvalMode ;;
  r <- test_loop dev 0 (batches test_loader 0) 0 0%Z ;;
  let n := Z.of_nat (length (loader_dataset test_loader)) in
  if (n =? 0)%Z then raise ZeroDivisionError
  else
    let test_loss := fst r / inject_Z n in
    let correct := snd r in
    append_test_loss test_loss ;;
    append_test_acc (inject_Z correct / inject_Z n) ;;
    emit (EvPrint (MsgTestSet test_loss correct n)) ;;
    emit (EvLogInfo (MsgTestSet test_loss correct n)).

End Loops.

(** ** The driver (train.py, lines 28-35 and 100-329) *)

Section Main.

Context `{C : Collaborators}.

(** What a run finds in its surroundings. *)
Record Env := mkEnv {
  (** [torch.cuda.is_available()] *)
  cuda_available : bool;
  (** [int(time.time())] when the module is loaded *)
  now : Z;
  (** the path separator of the platform *)
  sep : string;
  (** the examples the loader and generator of a dataset produce *)
  trainset : Z -> list example;
  testset : Z -> list example;
  (** the freshly constructed network for a dataset *)
  fresh_net : Z -> params
}.

Definition str (z : Z) : string := NilZero.string_of_int (Z.to_int z).

(** [a / b] of pathlib and [os.path.join(a, b)], for a relative [b] and an
    [a] that does not end with a separator. *)
Definition path_join (e : Env) (a b : string) : string :=
  (a ++ sep e ++ b)%string.

Definition savedir (e : Env) : string :=
  path_join e "experiments" (str (now e)).

Definition weights_dir : string :=
  "D:\NCKHSV.2024-2025\MultiMediapipe\DD-Net-Pytorch\weights".

Definition dataset_name (args : Args) : string :=
  if (dataset args =? 0)%Z then "JHMDB"
  else if (dataset args =? 1)%Z then "SHREC_coarse"
  else "SHREC_fine".

Definition filename (args : Args) : string :=
  (dataset_name args ++ "_latest_epoch_" ++ str (epochs args) ++ ".pt")%string.

Definition save_path (e : Env) (args : Args) : string :=
  path_join e weights_dir (filename args).

(** The world when the interpreter starts.  No network exists before
    line 222; the field holds a placeholder that is overwritten there
    before any use. *)
Definition world0 (e : Env) : World :=
  mkWorld (fresh_net e 0) Cpu history0 [].

(** Lines 28-35, executed when the module is loaded. *)
Definition module_init (e : Env) : M unit :=
  emit (EvMakedir (savedir e)) ;;
  emit (EvLogOpen (path_join e (savedir e) "train.log")).

Definition use_cuda (e : Env) (args : Args) : bool :=
  negb (no_cuda args) && cuda_available e.

Definition train_device (e : Env) (args : Args) : device :=
  if use_cuda e args then Cuda else Cpu.

(** Lines 130-157: logging of the arguments, the probe of the
    accelerator, the loader options. *)
Definition probe (e : Env) (args : Args) : M unit :=
  emit (EvLogInfo (MsgArgs args)) ;;
  (if cuda_available e then
     emit EvCudaAlloc ;;
     emit EvCudaAlloc ;;
     emit (EvPrint MsgCudaInitTest) ;;
     emit EvCudaFree ;;
     emit EvCudaEmptyCache
   else ret tt) ;;
  (if use_cuda e args then emit EvSeedGenerator else ret tt).

(** Lines 163-180: the dispatch on the dataset selector. *)
Definition select_dataset (args : Args) : M unit :=
  if (dataset args =? 0)%Z then ret tt
  else if (dataset args =? 1)%Z then ret tt
  else if (dataset args =? 2)%Z then ret tt
  else emit (EvPrint MsgUnsupportedDataset) ;; sys_exit 1.

(** Lines 182-199: the data and its loaders. *)
Definition load (e : Env) (args : Args) : M (DataLoader * DataLoader) :=
  emit (EvLoadData (dataset args)) ;;
  emit EvGenerateTrain ;;
  emit EvGenerateTest ;;
  train_loader <- make_loader (trainset e (dataset args)) (batch_size args)
                    (use_cuda e args) ;;
  test_loader <- make_loader (testset e (dataset args))
                   (test_batch_size args) false ;;
  ret (train_loader, test_loader).

(** Lines 201-239: the diagnostics, the network, the optimizer and the
    scheduler.  The optimizer refuses a negative rate and the scheduler a
    factor of 1 or more. *)
Definition build (e : Env) (args : Args) : M Scheduler.State :=
  (if cuda_available e then emit (EvPrint MsgCudaInfo) else ret tt) ;;
  emit (EvPrint MsgRule) ;;
  emit (EvPrint MsgCudaDebug) ;;
  emit EvBuildModel ;;
  set_net (fresh_net e (dataset args)) ;;
  emit (EvModelTo (train_device e args)) ;;
  set_device (train_device e args) ;;
  emit (EvPrint (MsgParameterDevice (train_device e args))) ;;
  (if Qltb (lr args) 0 then raise ValueError else emit EvBuildOptimizer) ;;
  match Scheduler.init (Scheduler.train_config (gamma args)) (lr args) with
  | None => raise ValueError
  | Some sch => emit EvBuildScheduler ;; ret sch
  end.

(** [scheduler.step(train_loss)]; [verbose=True] reports a rate that
    changed. *)
Definition scheduler_step (args : Args) (sch : Scheduler.State)
    (metrics : Q) : M Scheduler.State :=
  let sch' := Scheduler.step (Scheduler.train_config (gamma args)) sch
                metrics in
  (if Qltb (Scheduler.lr sch') (Scheduler.lr sch)
   then emit (EvPrint (MsgReducingLR (Scheduler.lr sch')))
   else ret tt) ;;
  ret sch'.

(** One iteration of the loop of lines 240-244. *)
Definition epoch_body (e : Env) (args : Args)
    (train_loader test_loader : DataLoader) (sch : Scheduler.State)
    (epoch : Z) : M Scheduler.State :=
  train_loss <- train args (train_device e args) (Scheduler.lr sch)
                  train_loader epoch ;;
  test (train_device e args) test_loader ;;
  scheduler_step args sch train_loss.

Fixpoint epoch_loop (e : Env) (args : Args)
    (train_loader test_loader : DataLoader) (sch : Scheduler.State)
    (epoch_range : list Z) : M Scheduler.State :=
  match epoch_range with
  | [] => ret sch
  | epoch :: rest =>
      sch' <- epoch_body e args train_loader test_loader sch epoch ;;
      epoch_loop e args train_loader test_loader sch' rest
  end.

(** [range(1, args.epochs + 1)]. *)
Definition epoch_range (args : Args) : list Z :=
  map Z.of_nat (seq 1 (Z.to_nat (epochs args))).

(** Lines 246-272: the figure.  [np.argmax] of an empty accuracy series
    is an error. *)
Definition report (e : Env) (args : Args) : M unit :=
  emit EvPlot ;;
  h <- get_history ;;
  match test_acc h with
  | [] => raise ValueError
  | _ :: _ =>
      emit EvPlot ;;
      emit EvEvalMode ;;
      emit (EvInputsTo (train_device e args)) ;;
      emit EvForward ;;
      emit EvPlot ;;
      emit (EvSavefig (path_join e (savedir e) "perf.png"))
  end.

(** Lines 274-288: the checkpoint. *)
Definition save_checkpoint (e : Env) (args : Args) : M unit :=
  if save_model args then
    emit (EvMakedirs weights_dir) ;;
    emit (EvSaveCheckpoint (save_path e args)) ;;
    emit (EvPrint (MsgSaved (save_path e args)))
  else ret tt.

(** One call of the network per test example, synchronised on the
    accelerator (lines 317-320). *)
Fixpoint time_samples (dev : device) (n : nat) : M unit :=
  match n with
  | O => ret tt
  | S n' =>
      emit EvForward ;;
      (if device_eqb dev Cuda then emit EvSynchronize else ret tt) ;;
      time_samples dev n'
  end.

(** The body of the loop of lines 293-329 for one backend.  Moving a
    tensor to an accelerator that is not there is an error. *)
Definition time_on (e : Env) (args : Args) (dev : device) : M unit :=
  emit (EvPrint (MsgTimingOn dev)) ;;
  original_model_device <- get_device ;;
  (if device_eqb dev Cuda && negb (cuda_available e)
   then raise CudaUnavailable
   else emit (EvInputsTo dev)) ;;
  emit (EvModelTo dev) ;;
  set_device dev ;;
  emit (EvPrint (MsgModelMoved dev)) ;;
  emit (EvPrint (MsgInputsMoved dev)) ;;
  emit EvForward ;;
  (if device_eqb dev Cuda then emit EvSynchronize else ret tt) ;;
  emit EvPerfCounter ;;
  time_samples dev (length (testset e (dataset args))) ;;
  emit EvPerfCounter ;;
  (if (Z.of_nat (length (testset e (dataset args))) =? 0)%Z
   then raise ZeroDivisionError
   else emit (EvPrint (MsgTotal dev))) ;;
  emit (EvLogInfo (MsgTotal dev)) ;;
  emit (EvModelTo original_model_device) ;;
  set_device original_model_device ;;
  emit (EvPrint (MsgModelRestored original_model_device)).

Fixpoint for_each_device (e : Env) (args : Args) (device_list : list device)
  : M unit :=
  match device_list with
  | [] => ret tt
  | dev :: rest => time_on e args dev ;; for_each_device e args rest
  end.

(** Lines 290-329: the timing harness. *)
Definition calc_times (e : Env) (args : Args) : M unit :=
  if calc_time args then for_each_device e args [Cpu; Cuda] else ret tt.

(** [main] from line 240 on: the epochs, then the figure, the checkpoint
    and the timings. *)
Definition train_and_report (e : Env) (args : Args)
    (loaders : DataLoader * DataLoader) (sch : Scheduler.State) : M unit :=
  epoch_loop e args (fst loaders) (snd loaders) sch (epoch_range args) ;;
  report e args ;;
  save_checkpoint e args ;;
  calc_times e args.

(** [main()] once the command line is parsed. *)
Definition main_body (e : Env) (args : Args) : M unit :=
  probe e args ;;
  select_dataset args ;;
  loaders <- load e args ;;
  sch <- build e args ;;
  train_and_report e args loaders sch.

Definition main (e : Env) (argv : list cli_opt) : M unit :=
  match parse_args argv with
  | inr status => sys_exit status
  | inl args => main_body e args
  end.

(** The script: the module is loaded, then [main()] runs. *)
Definition program (e : Env) (argv : list cli_opt) : World * outcome unit :=
  (module_init e ;; main e argv) (world0 e).

End Main.

(** ** Vocabulary of the statements *)

(** The six operations the training pass performs on batch [i]. *)
Definition batch_ops (dev : device) (i : Z) : list event :=
  [EvToDevice dev i; EvZeroGrad; EvForward; EvLoss; EvBackward;
   EvOptimizerStep].

Definition is_record (e : event) : bool :=
  match e with
  | EvPrint _ | EvLogInfo _ => true
  | _ => false
  end.

(** The effects that are not progress records. *)
Definition operations (t : list event) : list event :=
  filter (fun e => negb (is_record e)) t.

Definition is_optimizer_step (e : event) : bool :=
  match e with EvOptimizerStep => true | _ => false end.

(** The number of optimizer steps in a record of effects. *)
Definition optimizer_steps (t : list event) : nat :=
  length (filter is_optimizer_step t).

(** [range(n)] as batch indices. *)
Definition indices (n : nat) : list Z := map Z.of_nat (seq 0 n).

(** The [n] indices that [enumerate] hands out from [i] on. *)
Fixpoint indices_from (i : Z) (n : nat) : list Z :=
  match n with
  | O => []
  | S n' => i :: indices_from (i + 1) n'
  end.

(** The events of a complete timing on the CPU of [n] examples, for a
    network that lives on [d]. *)
Definition cpu_timing (d : device) (n : nat) : list event :=
  [EvPrint (MsgTimingOn Cpu); EvInputsTo Cpu; EvModelTo Cpu;
   EvPrint (MsgModelMoved Cpu); EvPrint (MsgInputsMoved Cpu); EvForward;
   EvPerfCounter]
  ++ repeat EvForward n
  ++ [EvPerfCounter; EvPrint (MsgTotal Cpu); EvLogInfo (MsgTotal Cpu);
      EvModelTo d; EvPrint (MsgModelRestored d)].

(** The events of a complete timing on the accelerator of [n] examples,
    for a network that lives on [d]: every call of the network is followed
    by a synchronisation. *)
Definition cuda_timing (d : device) (n : nat) : list event :=
  [EvPrint (MsgTimingOn Cuda); EvInputsTo Cuda; EvModelTo Cuda;
   EvPrint (MsgModelMoved Cuda); EvPrint (MsgInputsMoved Cuda); EvForward;
   EvSynchronize; EvPerfCounter]
  ++ concat (repeat [EvForward; EvSynchronize] n)
  ++ [EvPerfCounter; EvPrint (MsgTotal Cuda); EvLogInfo (MsgTotal Cuda);
      EvModelTo d; EvPrint (MsgModelRestored d)].

(** The progress records, without the operations. *)
Definition records (t : list event) : list event := filter is_record t.

(** The records the training pass emits for batches [i], [i + 1], ... with
    the given losses: one print and one log entry at each index that the
    interval divides. *)
Fixpoint progress_records (interval epoch i : Z) (losses : list Q)
  : list event :=
  match losses with
  | [] => []
  | loss :: rest =>
      (if (i mod interval =? 0)%Z
       then [EvPrint (MsgTrainEpoch epoch i loss);
             EvLogInfo (MsgTrainEpoch epoch i loss)]
       else [])
      ++ progress_records interval epoch (i + 1) rest
  end.

(** The effects that belong to training only: the switch to training
    mode and the three steps that change gradients or parameters. *)
Definition is_update (e : event) : bool :=
  match e with
  | EvTrainMode | EvZeroGrad | EvBackward | EvOptimizerStep => true
  | _ => false
  end.

(** Every transfer of a batch in [t] goes to the device [d]. *)
Definition batches_go_to (d : device) (e : event) : Prop :=
  match e with
  | EvToDevice d' _ => d' = d
  | _ => True
  end.

(** Acquisition of a resource: a directory, an open file, accelerator
    memory, a random generator. *)
Definition is_allocation (e : event) : bool :=
  match e with
  | EvMakedir _ | EvLogOpen _ | EvCudaAlloc | EvSeedGenerator
  | EvMakedirs _ => true
  | _ => false
  end.

(** Loading of data, construction of the network, training, evaluation,
    reporting. *)
Definition is_work (e : event) : bool :=
  match e with
  | EvLoadData _ | EvGenerateTrain | EvGenerateTest | EvBuildModel
  | EvModelTo _ | EvBuildOptimizer | EvBuildScheduler | EvTrainMode
  | EvEvalMode | EvToDevice _ _ | EvZeroGrad | EvForward | EvLoss
  | EvBackward | EvOptimizerStep | EvPlot | EvSavefig _
  | EvSaveCheckpoint _ | EvInputsTo _ | EvSynchronize | EvPerfCounter =>
      true
  | _ => false
  end.

(** A path that starts with a drive letter and a root, as in [D:\dir]. *)
Definition drive_rooted (p : string) : bool :=
  match p with
  | String _ (String ":"%char (String "\"%char _)) => true
  | _ => false
  end.

Section Vocabulary.

Context `{C : Collaborators}.

(** The network after the optimizer steps of a list of batches. *)
Fixpoint net_after (rate : Q) (p : params) (bs : list (list example))
  : params :=
  match bs with
  | [] => p
  | b :: rest => net_after rate (backward_step rate p b) rest
  end.

(** The loss of each batch, each under the parameters it meets. *)
Fixpoint batch_losses (rate : Q) (p : params) (bs : list (list example))
  : list Q :=
  match bs with
  | [] => []
  | b :: rest =>
      criterion (forward_train p b) (map label b)
        :: batch_losses rate (backward_step rate p b) rest
  end.

(** Python's [s = 0; for x in xs: s += x]. *)
Definition running_sum (xs : list Q) : Q := fold_left Qplus xs 0.

(** Is the predicted class of an example its label? *)
Definition hit (p : params) (ex : example) : bool :=
  match argmax (forward_eval p ex) with
  | Some i => (Z.of_nat i =? label ex)%Z
  | None => false
  end.

(** The number of examples whose predicted class is their label. *)
Definition hits (p : params) (ds : list example) : Z :=
  Z.of_nat (length (filter (hit p) ds)).

(** The sum-reduced loss of the whole set taken as one batch. *)
Definition whole_set_loss (p : params) (ds : list example) : Q :=
  criterion_sum (map (forward_eval p) ds) (map label ds).

(** The computation extends the record of effects by events that all
    satisfy [P]. *)
Definition emits {A : Type} (P : event -> Prop) (m : M A) : Prop :=
  forall w, exists t, trace (fst (m w)) = trace w ++ t /\ Forall P t.

(** The computation leaves the history as it found it. *)
Definition keeps_history {A : Type} (m : M A) : Prop :=
  forall w, history (fst (m w)) = history w.

(** The history [h'] extends [h] by exactly [k] entries in each series. *)
Definition extends_by (k : nat) (h h' : History) : Prop :=
  exists a b c,
    length a = k /\ length b = k /\ length c = k /\
    train_loss h' = train_loss h ++ a /\
    test_loss h' = test_loss h ++ b /\
    test_acc h' = test_acc h ++ c.

(** The computation leaves the network as it found it. *)
Definition keeps_net {A : Type} (m : M A) : Prop :=
  forall w, net (fst (m w)) = net w.

(** The computation leaves through [sys.exit] only with a status in [S]. *)
Definition exits_only {A : Type} (S : Z -> Prop) (m : M A) : Prop :=
  forall w s, snd (m w) = Exit s -> S s.

(** The effects of lines 130-157. *)
Definition probe_events (e : Env) (args : Args) : list event :=
  [EvLogInfo (MsgArgs args)]
  ++ (if cuda_available e
      then [EvCudaAlloc; EvCudaAlloc; EvPrint MsgCudaInitTest; EvCudaFree;
            EvCudaEmptyCache]
      else [])
  ++ (if use_cuda e args then [EvSeedGenerator] else []).

(** The effects of lines 182-239 when nothing is refused. *)
Definition setup_events (e : Env) (args : Args) : list event :=
  [EvLoadData (dataset args); EvGenerateTrain; EvGenerateTest]
  ++ (if cuda_available e then [EvPrint MsgCudaInfo] else [])
  ++ [EvPrint MsgRule; EvPrint MsgCudaDebug; EvBuildModel;
      EvModelTo (train_device e args);
      EvPrint (MsgParameterDevice (train_device e args));
      EvBuildOptimizer; EvBuildScheduler].

End Vocabulary.

(** ** The arithmetic of the evaluation loss (train.py, lines 75-91) *)

(** The numbers that [test] adds up, and how. *)
Record Arithmetic := mkArithmetic {
  num : Type;
  (** the initial [test_loss = 0], and the sum over no row *)
  num_zero : num;
  (** the additions inside [criterion(output, target)], in the precision
      of the network's output *)
  add_batch : num -> num -> num;
  (** [test_loss += ... .item()], on Python floats *)
  add_total : num -> num -> num;
  (** [test_loss /= len(test_loader.dataset)] *)
  div_total : num -> Z -> num
}.

(** Exact arithmetic on the rationals. *)
Definition exact_arithmetic : Arithmetic :=
  {| num := Q;
     num_zero := 0;
     add_batch := Qplus;
     add_total := Qplus;
     div_total := fun x n => x / inject_Z n |}.


Section EvaluationLoss.

Context `{C : Collaborators}.

Variable A : Arithmetic.

(** The network as [test] uses it: [model(M, P)] in evaluation mode on a
    whole batch, one row of scores per example, and the term of one row in
    [nn.CrossEntropyLoss(reduction='sum')]. *)
Record EvalNet := mkEvalNet {
  model_eval : list example -> list (list (num A));
  loss_term : list (num A) -> Z -> num A
}.

(** [criterion(output, target)] of line 83. *)
Definition criterion_sum_in (N : EvalNet) (output : list (list (num A)))
    (target : list Z) : num A :=
  fold_right (add_batch A) (num_zero A)
    (map (fun ot => loss_term N (fst ot) (snd ot)) (combine output target)).


(** [test_loss] after the loop of lines 79-83. *)
Definition summed_loss_in (N : EvalNet) (bs : list (list example)) : num A :=
  fold_left
    (fun test_loss b =>
       add_total A test_loss
         (criterion_sum_in N (model_eval N b) (map label b)))
    bs (num_zero A).

(** [test_loss] after line 91; an empty dataset is a division by zero. *)
Definition average_loss_in (N : EvalNet) (loader : DataLoader)
  : option (num A) :=
  let n := Z.of_nat (length (loader_dataset loader)) in
  if (n =? 0)%Z then None
  else Some (div_total A (summed_loss_in N (batches loader 0)) n).

End EvaluationLoss.

(** The network of the collaborators under the parameters [p], in exact
    arithmetic: the rows of a batch are the scores of its examples. *)
Definition exact_net `{C : Collaborators} (p : params)
  : EvalNet exact_arithmetic :=
  mkEvalNet exact_arithmetic (map (forward_eval p)) cross_entropy.

(** ** A small instance for concrete runs *)

(** A network of one rational weight over two classes; an example is a
    pair of a feature and a label.  Class 0 scores the weight, class 1 the
    feature. *)
Definition toy : Collaborators :=
  {| params := Q;
     example := Q * Z;
     label := snd;
     forward_train := fun p b => map (fun ex => [p; fst ex]) b;
     criterion := fun output target =>
       fold_right Qplus 0 (map (fun row => fold_right Qplus 0 row) output);
     backward_step := fun rate p b => p - rate;
     forward_eval := fun p ex => [p; fst ex];
     cross_entropy := fun row t => if (t =? 0)%Z then 1 # 4 else 1 # 2;
     shuffle := fun epoch ds => rev ds |}.

Definition toy_env (cuda : bool) : @Env toy :=
  @mkEnv toy cuda 1700000000 "\"
    (fun _ => [(0, 0%Z); (0, 1%Z); (0, 0%Z)])
    (fun _ => [(0, 0%Z); (0, 1%Z)])
    (fun _ => 1).

Definition toy_world : @World toy := @mkWorld toy 1 Cpu history0 [].

(** Ten examples, three of them with label 0; the weight 1 makes class 0
    win on each. *)
Definition ten_examples : list (Q * Z) :=
  [(0, 0%Z); (0, 1%Z); (0, 2%Z); (0, 0%Z); (0, 1%Z);
   (0, 2%Z); (0, 0%Z); (0, 1%Z); (0, 2%Z); (0, 1%Z)].




(** * Properties *)

(** ** Comparisons *)

Lemma Qltb_lt x y : Qltb x y = true <-> x < y.
Proof.
  unfold Qltb. rewrite negb_true_iff. split; intro H.
  - apply Qnot_le_lt. intro L. apply Qle_bool_iff in L. congruence.
  - destruct (Qle_bool y x) eqn:E; [|reflexivity].
    apply Qle_bool_iff in E. lra.
Qed.

Lemma Qltb_ge x y : Qltb x y = false <-> y <= x.
Proof.
  unfold Qltb. rewrite negb_false_iff. apply Qle_bool_iff.
Qed.

(** ** The scheduler: the rate never rises and stays above its floor *)

Section SchedulerFacts.

Import Scheduler.

Lemma lr_observe c s m : lr (observe c s m) = lr s.
Proof.
  unfold observe.
  destruct (is_better c m (best s)); cbn;
    match goal with |- context [in_cooldown ?x] => destruct (in_cooldown x) end;
    reflexivity.
Qed.

Lemma lr_step c s m :
  lr (step c s m) = if fires c s m then reduce_lr c (lr s) else lr s.
Proof.
  unfold step, fires.
  destruct (patience c <? num_bad_epochs (observe c s m))%Z; cbn;
    now rewrite lr_observe.
Qed.

Lemma reduce_lr_le c x : 0 <= eps c -> reduce_lr c x <= x.
Proof.
  intro He. unfold reduce_lr.
  destruct (Qltb (eps c) (x - Qmax (x * factor c) (min_lr c))) eqn:E.
  - apply Qltb_lt in E. lra.
  - lra.
Qed.

Lemma reduce_lr_floor c x : reduce_lr c x < x -> min_lr c <= reduce_lr c x.
Proof.
  unfold reduce_lr.
  destruct (Qltb (eps c) (x - Qmax (x * factor c) (min_lr c))).
  - intros _. apply Q.le_max_r.
  - lra.
Qed.

Lemma reduce_lr_keeps_floor c x : min_lr c <= x -> min_lr c <= reduce_lr c x.
Proof.
  intro H. unfold reduce_lr.
  destruct (Qltb (eps c) (x - Qmax (x * factor c) (min_lr c))).
  - apply Q.le_max_r.
  - exact H.
Qed.

Lemma reduce_lr_product c x :
  min_lr c <= x * factor c -> eps c < x - x * factor c ->
  reduce_lr c x == x * factor c.
Proof.
  intros Hfloor Hgap. unfold reduce_lr.
  assert (M : Qmax (x * factor c) (min_lr c) == x * factor c)
    by (apply Q.max_l; exact Hfloor).
  destruct (Qltb (eps c) (x - Qmax (x * factor c) (min_lr c))) eqn:E.
  - exact M.
  - apply Qltb_ge in E. rewrite M in E. lra.
Qed.

Lemma step_lr_le c s m : 0 <= eps c -> lr (step c s m) <= lr s.
Proof.
  intro He. rewrite lr_step. destruct (fires c s m).
  - now apply reduce_lr_le.
  - lra.
Qed.

Lemma step_lr_drop_floor c s m :
  lr (step c s m) < lr s -> min_lr c <= lr (step c s m).
Proof.
  rewrite lr_step. destruct (fires c s m).
  - apply reduce_lr_floor.
  - lra.
Qed.

Lemma step_lr_keeps_floor c s m :
  min_lr c <= lr s -> min_lr c <= lr (step c s m).
Proof.
  intro H. rewrite lr_step. destruct (fires c s m).
  - now apply reduce_lr_keeps_floor.
  - exact H.
Qed.

Lemma run_snoc c s ms m : run c s (ms ++ [m]) = step c (run c s ms) m.
Proof. unfold run. now rewrite fold_left_app. Qed.

Lemma run_lr_le c s ms : 0 <= eps c -> lr (run c s ms) <= lr s.
Proof.
  intro He. revert s. induction ms as [|m ms IH]; intro s; cbn.
  - lra.
  - eapply Qle_trans; [apply IH|]. now apply step_lr_le.
Qed.

Lemma run_lr_keeps_floor c s ms :
  min_lr c <= lr s -> min_lr c <= lr (run c s ms).
Proof.
  revert s. induction ms as [|m ms IH]; intros s H; cbn.
  - exact H.
  - apply IH. now apply step_lr_keeps_floor.
Qed.

Lemma run_app c s ms1 ms2 : run c s (ms1 ++ ms2) = run c (run c s ms1) ms2.
Proof. unfold run. apply fold_left_app. Qed.

Lemma firstn_succ_snoc {A : Type} (k : nat) (l : list A) :
  firstn (S k) l =
  firstn k l ++ match nth_error l k with Some x => [x] | None => [] end.
Proof.
  revert k. induction l as [|a l IH]; intros [|k]; cbn; try reflexivity.
  now rewrite <- IH.
Qed.

Lemma firstn_incl {A : Type} (k : nat) (l : list A) (x : A) :
  In x (firstn k l) -> In x l.
Proof.
  revert k. induction l as [|a l IH]; intros [|k]; cbn; try tauto.
  intros [H|H]; [now left|right; eauto].
Qed.

Lemma firstn_le_split {A : Type} (i j : nat) (l : list A) :
  (i <= j)%nat -> firstn j l = firstn i l ++ firstn (j - i) (skipn i l).
Proof.
  revert j l. induction i as [|i IH]; intros j l Hij.
  - cbn. now rewrite Nat.sub_0_r.
  - destruct j as [|j]; [lia|]. destruct l as [|a l]; cbn.
    + now rewrite firstn_nil.
    + f_equal. apply IH. lia.
Qed.

(** C1.  Whatever losses are fed to the scheduler of [main], one per
    epoch, the rate it maintains never rises from one call to a later one,
    every drop lands at or above the floor 5e-6, and a rate that starts at
    or above the floor never gets below it. *)
Theorem scheduler_rate_non_increasing_and_floored
    (gamma : Q) (s : State) (ms : list Q) :
  let c := train_config gamma in
  let rate := fun k => lr (run c s (firstn k ms)) in
  (forall i j, (i <= j)%nat -> rate j <= rate i) /\
  (forall k, rate (S k) < rate k -> (5 # 1000000) <= rate (S k)) /\
  ((5 # 1000000) <= lr s -> forall k, (5 # 1000000) <= rate k).
Proof.
  intros c rate. unfold rate. repeat split.
  - intros i j Hij. rewrite (firstn_le_split i j ms Hij), run_app.
    apply run_lr_le. unfold c. cbn. lra.
  - intros k. rewrite firstn_succ_snoc.
    destruct (nth_error ms k) as [m|].
    + rewrite run_snoc. apply (step_lr_drop_floor c).
    + rewrite app_nil_r. lra.
  - intros H k. now apply (run_lr_keeps_floor c).
Qed.

(** A rate of 0.01 with factor 0.5, fed a loss that stalls at 10 for eight
    epochs. *)
Lemma scheduler_rate_non_increasing_and_floored_witness :
  let c := train_config (1 # 2) in
  let s := mkState (1 # 100) None 0 0 0 in
  let ms := [10; 10; 10; 10; 10; 10; 10; 10] in
  (5 # 1000000) <= lr s /\
  lr (run c s (firstn 8 ms)) <= lr (run c s (firstn 0 ms)) /\
  (5 # 1000000) <= lr (run c s (firstn 8 ms)).
Proof.
  pose proof (scheduler_rate_non_increasing_and_floored (1 # 2)
                (mkState (1 # 100) None 0 0 0)
                [10; 10; 10; 10; 10; 10; 10; 10]) as [Hmono [_ Hfloor]].
  assert (F : (5 # 1000000) <= 1 # 100) by (vm_compute; discriminate).
  split; [exact F|]. split.
  - apply (Hmono 0%nat 8%nat). lia.
  - exact (Hfloor F 8%nat).
Defined.

(** ** The scheduler: six stalled epochs *)

Lemma observe_stalled c s m :
  in_cooldown s = false -> is_better c m (best s) = false ->
  observe c s m =
  mkState (lr s) (best s) (num_bad_epochs s + 1) (cooldown_counter s)
    (last_epoch s + 1).
Proof.
  intros Hc Hb. unfold observe. rewrite Hb. unfold in_cooldown in *. cbn.
  now rewrite Hc.
Qed.

Lemma step_stalled c s m :
  in_cooldown s = false -> is_better c m (best s) = false ->
  (num_bad_epochs s + 1 <= patience c)%Z ->
  fires c s m = false /\
  step c s m =
  mkState (lr s) (best s) (num_bad_epochs s + 1) (cooldown_counter s)
    (last_epoch s + 1).
Proof.
  intros Hc Hb Hp. unfold fires, step. rewrite (observe_stalled c s m Hc Hb).
  cbn. assert (E : (patience c <? num_bad_epochs s + 1)%Z = false)
    by (apply Z.ltb_ge; exact Hp).
  now rewrite E.
Qed.

Lemma step_patience_exceeded c s m :
  in_cooldown s = false -> is_better c m (best s) = false ->
  (patience c < num_bad_epochs s + 1)%Z ->
  fires c s m = true /\
  step c s m =
  mkState (reduce_lr c (lr s)) (best s) 0 (cooldown c) (last_epoch s + 1).
Proof.
  intros Hc Hb Hp. unfold fires, step. rewrite (observe_stalled c s m Hc Hb).
  cbn. assert (E : (patience c <? num_bad_epochs s + 1)%Z = true)
    by (apply Z.ltb_lt; exact Hp).
  now rewrite E.
Qed.

Lemma step_in_cooldown c s m :
  in_cooldown s = true -> (0 <= patience c)%Z ->
  fires c s m = false /\ lr (step c s m) = lr s.
Proof.
  intros Hc Hp.
  assert (F : fires c s m = false).
  { unfold fires, observe.
    destruct (is_better c m (best s)); unfold in_cooldown in *; cbn;
      rewrite Hc; cbn; apply Z.ltb_ge; exact Hp. }
  split; [exact F|]. now rewrite lr_step, F.
Qed.

Lemma reductions_app c s ms1 ms2 :
  reductions c s (ms1 ++ ms2) =
  (reductions c s ms1 + reductions c (run c s ms1) ms2)%nat.
Proof.
  revert s. induction ms1 as [|m ms1 IH]; intro s.
  - reflexivity.
  - cbn [app reductions]. rewrite IH. unfold run. cbn [fold_left]. lia.
Qed.

(** A streak of stalled epochs within the patience only counts. *)
Lemma run_stalled c ms :
  forall s,
    in_cooldown s = false ->
    Forall (fun m => is_better c m (best s) = false) ms ->
    (num_bad_epochs s + Z.of_nat (length ms) <= patience c)%Z ->
    run c s ms =
    mkState (lr s) (best s) (num_bad_epochs s + Z.of_nat (length ms))
      (cooldown_counter s) (last_epoch s + Z.of_nat (length ms))
    /\ reductions c s ms = 0%nat.
Proof.
  induction ms as [|m ms IH]; intros s Hc Hall Hp.
  - cbn. rewrite !Z.add_0_r. now destruct s.
  - inversion Hall as [|x l Hm Hrest]; subst.
    cbn [length] in Hp. rewrite Nat2Z.inj_succ in Hp.
    destruct (step_stalled c s m Hc Hm ltac:(lia)) as [Hf Hs].
    cbn [run fold_left reductions]. rewrite Hf, Hs.
    match goal with |- context [fold_left (step c) ms ?s1] =>
      destruct (IH s1) as [Hr Hn] end.
    + exact Hc.
    + exact Hrest.
    + cbn [num_bad_epochs]. lia.
    + unfold run in Hr. rewrite Hr, Hn.
      cbn [lr best num_bad_epochs cooldown_counter last_epoch length].
      split; [|reflexivity]. f_equal; rewrite Nat2Z.inj_succ; lia.
Qed.

(** C2.  With the scheduler of [main] (patience 5, cooldown 0.5, factor
    [gamma]) tracking with no stalled epoch counted, six consecutive losses
    that do not improve on the best one trigger exactly one reduction, at
    the sixth: the first five leave the rate alone, the sixth applies the
    reduction by the factor (the product, when it stays at or above the
    floor and lowers the rate by more than [eps]) and starts the cooldown;
    a seventh value then meets the cooldown and triggers no reduction. *)
Theorem six_stalled_epochs_reduce_once
    (gamma : Q) (s : State) (ms : list Q) (m7 : Q) :
  let c := train_config gamma in
  in_cooldown s = false ->
  num_bad_epochs s = 0%Z ->
  length ms = 6%nat ->
  Forall (fun m => is_better c m (best s) = false) ms ->
  let s6 := run c s ms in
  reductions c s ms = 1%nat /\
  (forall k, (k < 6)%nat ->
     lr (run c s (firstn k ms)) = lr s /\
     reductions c s (firstn k ms) = 0%nat) /\
  fires c (run c s (firstn 5 ms)) (nth 5 ms 0) = true /\
  lr s6 = reduce_lr c (lr s) /\
  (min_lr c <= lr s * gamma -> eps c < lr s - lr s * gamma ->
   lr s6 == lr s * gamma) /\
  in_cooldown s6 = true /\
  fires c s6 m7 = false /\
  lr (step c s6 m7) = lr s6 /\
  reductions c s (ms ++ [m7]) = 1%nat.
Proof.
  intros c Hc Hbad Hlen Hall s6.
  assert (Hpre : forall k, (k < 6)%nat ->
            run c s (firstn k ms) =
            mkState (lr s) (best s) (Z.of_nat k) (cooldown_counter s)
              (last_epoch s + Z.of_nat k)
            /\ reductions c s (firstn k ms) = 0%nat).
  { intros k Hk.
    assert (L : length (firstn k ms) = k) by (rewrite length_firstn; lia).
    destruct (run_stalled c (firstn k ms) s Hc) as [Hr Hn].
    - apply Forall_forall. intros m Hm. apply firstn_incl in Hm.
      revert m Hm. now apply Forall_forall.
    - rewrite L, Hbad. unfold c. cbn. lia.
    - rewrite L, Hbad in Hr. cbn in Hr. now split. }
  destruct (Hpre 5%nat ltac:(lia)) as [H5 N5].
  assert (Hsplit : ms = firstn 5 ms ++ [nth 5 ms 0]).
  { destruct ms as [|m1 [|m2 [|m3 [|m4 [|m5 [|m6 [|m ms]]]]]]];
      try discriminate. reflexivity. }
  assert (Hm6 : is_better c (nth 5 ms 0) (best s) = false).
  { revert Hall. rewrite Forall_forall. intro Hall. apply Hall.
    apply nth_In. lia. }
  set (s5 := run c s (firstn 5 ms)) in *.
  assert (Hc5 : in_cooldown s5 = false) by (rewrite H5; exact Hc).
  assert (Hb5 : is_better c (nth 5 ms 0) (best s5) = false)
    by (rewrite H5; exact Hm6).
  destruct (step_patience_exceeded c s5 (nth 5 ms 0) Hc5 Hb5) as [Hf Hs].
  { rewrite H5. unfold c. cbn. lia. }
  assert (Hs6 : s6 = step c s5 (nth 5 ms 0)).
  { unfold s6. rewrite Hsplit at 1. now rewrite run_snoc. }
  assert (Hlr6 : lr s6 = reduce_lr c (lr s)).
  { rewrite Hs6, Hs, H5. reflexivity. }
  assert (Hcool : in_cooldown s6 = true).
  { rewrite Hs6, Hs. reflexivity. }
  assert (Hred6 : reductions c s ms = 1%nat).
  { rewrite Hsplit at 1. rewrite reductions_app, N5. cbn [reductions].
    fold s5. now rewrite Hf. }
  destruct (step_in_cooldown c s6 m7 Hcool) as [Hf7 Hlr7].
  { unfold c. cbn. lia. }
  repeat split.
  - exact Hred6.
  - destruct (Hpre k H) as [Hr _]. now rewrite Hr.
  - now destruct (Hpre k H).
  - exact Hf.
  - exact Hlr6.
  - intros Hfloor Hgap. rewrite Hlr6. now apply reduce_lr_product.
  - exact Hcool.
  - exact Hf7.
  - exact Hlr7.
  - rewrite reductions_app, Hred6. cbn [reductions]. fold s6.
    now rewrite Hf7.
Qed.

(** After a first loss of 10 at rate 0.01 and factor 0.5, the loss stays
    at 10 for seven more epochs. *)
Lemma six_stalled_epochs_reduce_once_witness :
  let c := train_config (1 # 2) in
  let s := step c (mkState (1 # 100) None 0 0 0) 10 in
  let ms := [10; 10; 10; 10; 10; 10] in
  in_cooldown s = false /\ num_bad_epochs s = 0%Z /\
  Forall (fun m => is_better c m (best s) = false) ms /\
  reductions c s ms = 1%nat /\
  lr (run c s ms) == (1 # 100) * (1 # 2) /\
  lr (step c (run c s ms) 10) = lr (run c s ms).
Proof.
  assert (F : Forall
                (fun m => is_better (train_config (1 # 2)) m
                            (best (step (train_config (1 # 2))
                                     (mkState (1 # 100) None 0 0 0) 10))
                          = false)
                [10; 10; 10; 10; 10; 10])
    by (repeat constructor).
  pose proof (six_stalled_epochs_reduce_once (1 # 2)
                (step (train_config (1 # 2)) (mkState (1 # 100) None 0 0 0) 10)
                [10; 10; 10; 10; 10; 10] 10
                eq_refl eq_refl eq_refl F)
    as [H1 [_ [_ [_ [H5 [_ [_ [H8 _]]]]]]]].
  split; [reflexivity|]. split; [reflexivity|]. split; [exact F|].
  split; [exact H1|]. split; [|exact H8].
  apply H5; vm_compute; congruence.
Defined.

End SchedulerFacts.

(** ** Sequencing *)

Section DriverFacts.

Context `{C : Collaborators}.

Lemma bind_ok {A B} (m : M A) (k : A -> M B) w w' a :
  m w = (w', Ok a) -> bind m k w = k a w'.
Proof. intro H. unfold bind. now rewrite H. Qed.

Lemma bind_raise {A B} (m : M A) (k : A -> M B) w w' e :
  m w = (w', Raise e) -> bind m k w = (w', Raise e).
Proof. intro H. unfold bind. now rewrite H. Qed.

Lemma bind_exit {A B} (m : M A) (k : A -> M B) w w' s :
  m w = (w', Exit s) -> bind m k w = (w', Exit s).
Proof. intro H. unfold bind. now rewrite H. Qed.

(** A sequence that ends normally went through both of its parts. *)
Lemma bind_ok_inv {A B} (m : M A) (k : A -> M B) w w' b :
  bind m k w = (w', Ok b) ->
  exists w1 a, m w = (w1, Ok a) /\ k a w1 = (w', Ok b).
Proof.
  unfold bind. destruct (m w) as [w1 [a|e|s]]; intro H; try discriminate.
  now exists w1, a.
Qed.

Lemma world_eta (w : World) :
  mkWorld (net w) (net_device w) (history w) (trace w) = w.
Proof. now destruct w. Qed.

(** ** Computations that leave the history alone *)

Lemma keeps_ret {A} (a : A) : keeps_history (ret a).
Proof. intro w. reflexivity. Qed.

Lemma keeps_raise {A} (e : exn) : keeps_history (@raise _ A e).
Proof. intro w. reflexivity. Qed.

Lemma keeps_exit {A} (s : Z) : keeps_history (@sys_exit _ A s).
Proof. intro w. reflexivity. Qed.

Lemma keeps_emit (e : event) : keeps_history (emit e).
Proof. intro w. reflexivity. Qed.

Lemma keeps_get_net : keeps_history get_net.
Proof. intro w. reflexivity. Qed.

Lemma keeps_set_net p : keeps_history (set_net p).
Proof. intro w. reflexivity. Qed.

Lemma keeps_get_device : keeps_history get_device.
Proof. intro w. reflexivity. Qed.

Lemma keeps_set_device d : keeps_history (set_device d).
Proof. intro w. reflexivity. Qed.

Lemma keeps_get_history : keeps_history get_history.
Proof. intro w. reflexivity. Qed.

Lemma keeps_bind {A B} (m : M A) (k : A -> M B) :
  keeps_history m -> (forall a, keeps_history (k a)) ->
  keeps_history (bind m k).
Proof.
  intros Hm Hk w. unfold bind. specialize (Hm w).
  destruct (m w) as [w1 [a|e|s]]; cbn in *; try exact Hm.
  now rewrite (Hk a w1).
Qed.

Lemma keeps_if {A} (b : bool) (m1 m2 : M A) :
  keeps_history m1 -> keeps_history m2 ->
  keeps_history (if b then m1 else m2).
Proof. now destruct b. Qed.

End DriverFacts.

Create HintDb keeps.

#[local] Hint Resolve keeps_ret keeps_raise keeps_exit keeps_emit
  keeps_get_net keeps_set_net keeps_get_device keeps_set_device
  keeps_get_history keeps_if : keeps.

Ltac keeps :=
  repeat first
    [ apply keeps_bind; [|intro]
    | apply keeps_if
    | solve [auto with keeps] ].

(** ** The training pass *)

Section TrainFacts.

Context `{C : Collaborators}.

Lemma indices_from_0 n : indices_from 0 n = indices n.
Proof.
  unfold indices.
  assert (G : forall k i, indices_from (Z.of_nat i) k = map Z.of_nat (seq i k)).
  { induction k as [|k IH]; intro i; cbn [indices_from seq map].
    - reflexivity.
    - f_equal. rewrite <- IH. f_equal. lia. }
  exact (G n 0%nat).
Qed.

Lemma operations_app t1 t2 :
  operations (t1 ++ t2) = operations t1 ++ operations t2.
Proof. apply filter_app. Qed.

Lemma optimizer_steps_app t1 t2 :
  optimizer_steps (t1 ++ t2) = (optimizer_steps t1 + optimizer_steps t2)%nat.
Proof. unfold optimizer_steps. now rewrite filter_app, length_app. Qed.

(** One batch: the six operations in order, one optimizer step, and the
    loss under the parameters the batch met. *)
Lemma train_batch_run dev rate i b w :
  train_batch dev rate i b w =
  (mkWorld (backward_step rate (net w) b) (net_device w) (history w)
     (trace w ++ batch_ops dev i),
   Ok (criterion (forward_train (net w) b) (map label b))).
Proof.
  unfold train_batch, bind, emit, get_net, set_net, ret, batch_ops. cbn.
  now rewrite <- !app_assoc.
Qed.

(** The loop without [dry_run]: every batch is processed. *)
Lemma train_loop_full args dev rate epoch :
  log_interval args <> 0%Z -> dry_run args = false ->
  forall bs i acc w,
  exists t,
    train_loop args dev rate epoch i bs acc w =
    (mkWorld (net_after rate (net w) bs) (net_device w) (history w)
       (trace w ++ t),
     Ok (fold_left Qplus (batch_losses rate (net w) bs) acc))
    /\ operations t = flat_map (batch_ops dev) (indices_from i (length bs))
    /\ optimizer_steps t = length bs.
Proof.
  intros Hli Hdry.
  assert (E0 : (log_interval args =? 0)%Z = false) by now apply Z.eqb_neq.
  induction bs as [|b rest IH]; intros i acc w.
  - exists []. cbn. rewrite app_nil_r, world_eta. now repeat split.
  - cbn [train_loop]. rewrite (bind_ok _ _ _ _ _ (train_batch_run dev rate i b w)).
    rewrite E0, Hdry.
    cbn [net_after batch_losses fold_left length indices_from flat_map].
    destruct (i mod log_interval args =? 0)%Z.
    + unfold bind at 1 2. unfold emit at 1 2.
      cbn [net net_device history trace].
      match goal with |- context [train_loop _ _ _ _ _ rest ?a ?w1] =>
        destruct (IH (i + 1)%Z a w1) as [t [Hrun [Hops Hsteps]]] end.
      cbn [net net_device history trace] in Hrun.
      eexists. split; [|split].
      * rewrite Hrun. rewrite <- !app_assoc. reflexivity.
      * rewrite !operations_app, Hops. reflexivity.
      * rewrite !optimizer_steps_app, Hsteps. reflexivity.
    + match goal with |- context [train_loop _ _ _ _ _ rest ?a ?w1] =>
        destruct (IH (i + 1)%Z a w1) as [t [Hrun [Hops Hsteps]]] end.
      cbn [net net_device history trace] in Hrun.
      eexists. split; [|split].
      * rewrite Hrun. rewrite <- !app_assoc. reflexivity.
      * rewrite !operations_app, Hops. reflexivity.
      * rewrite !optimizer_steps_app, Hsteps. reflexivity.
Qed.

(** C3 (as amended).  With [dry_run] unset and a non-zero [log_interval],
    one call of the training pass performs on every batch of its iterable,
    in order, the device transfer, the gradient reset, the forward pass, the
    loss, the backward pass and one optimizer step, and returns (and
    appends to the history) the plain running sum of the losses of the
    batches, with no division. *)
Theorem train_processes_every_batch_and_returns_sum
    (args : Args) (dev : device) (rate : Q) (bs : list (list example))
    (epoch : Z) (w : World) :
  log_interval args <> 0%Z -> dry_run args = false ->
  let total := running_sum (batch_losses rate (net w) bs) in
  exists t,
    train_pass args dev rate bs epoch w =
    (mkWorld (net_after rate (net w) bs) (net_device w)
       (mkHistory (train_loss (history w) ++ [total])
          (test_loss (history w)) (test_acc (history w)))
       (trace w ++ t),
     Ok total)
    /\ operations t =
       EvTrainMode :: flat_map (batch_ops dev) (indices (length bs))
    /\ optimizer_steps t = length bs.
Proof.
  intros Hli Hdry total. unfold train_pass.
  erewrite bind_ok by (unfold emit; reflexivity).
  destruct (train_loop_full args dev rate epoch Hli Hdry bs 0%Z 0
              (mkWorld (net w) (net_device w) (history w)
                 (trace w ++ [EvTrainMode])))
    as [t [Hrun [Hops Hsteps]]].
  cbn [net net_device history trace] in Hrun.
  exists (EvTrainMode :: t). split; [|split].
  - rewrite (bind_ok _ _ _ _ _ Hrun).
    unfold append_train_loss, bind, get_history, set_history, ret.
    cbn [net net_device history trace]. rewrite <- app_assoc. reflexivity.
  - change (EvTrainMode :: t) with ([EvTrainMode] ++ t).
    rewrite operations_app, Hops, indices_from_0. reflexivity.
  - change (EvTrainMode :: t) with ([EvTrainMode] ++ t).
    rewrite optimizer_steps_app, Hsteps. reflexivity.
Qed.

(** C6 (as amended).  With [dry_run] set and a non-zero [log_interval],
    the pass stops at the first log point, which is the first batch: it
    processes at most one batch (hence at most [log_interval + 1] when the
    interval is not negative), logs it, and returns the loss accumulated
    so far. *)
Theorem dry_run_stops_at_first_log_point
    (args : Args) (dev : device) (rate : Q) (bs : list (list example))
    (epoch : Z) (w : World) :
  dry_run args = true -> log_interval args <> 0%Z ->
  let done := firstn 1 bs in
  let total := running_sum (batch_losses rate (net w) done) in
  exists t,
    train_pass args dev rate bs epoch w =
    (mkWorld (net_after rate (net w) done) (net_device w)
       (mkHistory (train_loss (history w) ++ [total])
          (test_loss (history w)) (test_acc (history w)))
       (trace w ++ t),
     Ok total)
    /\ operations t =
       EvTrainMode :: flat_map (batch_ops dev) (indices (length done))
    /\ optimizer_steps t = length done
    /\ (length done <= 1)%nat
    /\ (0 <= log_interval args ->
        Z.of_nat (optimizer_steps t) <= log_interval args + 1)%Z
    /\ (forall b rest, bs = b :: rest ->
        let loss := criterion (forward_train (net w) b) (map label b) in
        t = EvTrainMode :: batch_ops dev 0 ++
            [EvPrint (MsgTrainEpoch epoch 0 loss);
             EvLogInfo (MsgTrainEpoch epoch 0 loss)]).
Proof.
  intros Hdry Hli done total.
  assert (E0 : (log_interval args =? 0)%Z = false) by now apply Z.eqb_neq.
  destruct bs as [|b rest].
  - exists [EvTrainMode]. cbn. repeat split; try lia. discriminate.
  - exists (EvTrainMode :: batch_ops dev 0 ++
            [EvPrint (MsgTrainEpoch epoch 0
                        (criterion (forward_train (net w) b) (map label b)));
             EvLogInfo (MsgTrainEpoch epoch 0
                          (criterion (forward_train (net w) b)
                             (map label b)))]).
    split; [|repeat split; cbn; try lia; intros b' rest' E;
             injection E as -> ->; reflexivity].
    unfold train_pass. cbn [train_loop].
    erewrite bind_ok by (unfold emit; reflexivity).
    erewrite (bind_ok (bind _ _)); cycle 1.
    { erewrite bind_ok by apply train_batch_run.
      rewrite E0, Zmod_0_l. cbn [Z.eqb]. rewrite Hdry.
      unfold bind, emit, ret. cbn [net net_device history trace].
      reflexivity. }
    unfold append_train_loss, bind, emit, get_history, set_history, ret.
    cbn [net net_device history trace]. rewrite <- !app_assoc.
    reflexivity.
Qed.

End TrainFacts.

(** ** The evaluation pass *)

Section TestFacts.

Context `{C : Collaborators}.

(** The slices of a loader put together again are the dataset. *)
Lemma concat_chunks {A : Type} (n : nat) :
  (0 < n)%nat ->
  forall fuel (l : list A),
    (length l <= fuel)%nat -> concat (chunks fuel n l) = l.
Proof.
  intro Hn. induction fuel as [|fuel IH]; intros l Hl.
  - destruct l; [reflexivity|cbn in Hl; lia].
  - destruct l as [|a l]; [reflexivity|].
    cbn [chunks concat]. rewrite IH.
    + apply firstn_skipn.
    + rewrite length_skipn. cbn [length] in *. lia.
Qed.

Lemma concat_batches ds bsz :
  (0 < bsz)%Z -> concat (batches (mkLoader ds bsz false) 0) = ds.
Proof.
  intro H. unfold batches. cbn [loader_shuffle loader_dataset loader_batch_size].
  apply concat_chunks; lia.
Qed.

(** A loader whose batch size is the size of the set yields the set as
    its one batch. *)
Lemma batches_single ds :
  ds <> [] ->
  batches (mkLoader ds (Z.of_nat (length ds)) false) 0 = [ds].
Proof.
  intro Hne. unfold batches.
  cbn [loader_shuffle loader_dataset loader_batch_size].
  rewrite Nat2Z.id. destruct ds as [|a l]; [congruence|].
  cbn [length chunks]. rewrite firstn_all2 by (cbn; lia).
  rewrite skipn_all2 by (cbn; lia). now destruct (length l).
Qed.

Lemma criterion_sum_examples p (b : list example) :
  criterion_sum (map (forward_eval p) b) (map label b) =
  fold_right Qplus 0
    (map (fun ex => cross_entropy (forward_eval p ex) (label ex)) b).
Proof.
  unfold criterion_sum. induction b as [|a b IH]; cbn in *.
  - reflexivity.
  - now rewrite IH.
Qed.

Lemma whole_set_loss_app p (b1 b2 : list example) :
  whole_set_loss p (b1 ++ b2) == whole_set_loss p b1 + whole_set_loss p b2.
Proof.
  unfold whole_set_loss. rewrite !criterion_sum_examples.
  induction b1 as [|a b1 IH]; cbn [app map fold_right].
  - lra.
  - rewrite IH. lra.
Qed.

Lemma hits_app p (b1 b2 : list example) :
  hits p (b1 ++ b2) = (hits p b1 + hits p b2)%Z.
Proof. unfold hits. rewrite filter_app, length_app. lia. Qed.

(** [argmax] is the index of a maximal score. *)
Lemma argmax_from_spec (l : list Q) :
  forall (pre : list Q) (bi : nat) (bv : Q),
    (bi < length pre)%nat -> nth bi pre 0 = bv ->
    (forall x, In x pre -> x <= bv) ->
    (argmax_from (length pre) bi bv l < length (pre ++ l))%nat /\
    forall x, In x (pre ++ l) ->
      x <= nth (argmax_from (length pre) bi bv l) (pre ++ l) 0.
Proof.
  induction l as [|y rest IH]; intros pre bi bv Hbi Hnth Hmax.
  - cbn [argmax_from]. rewrite app_nil_r. split; [exact Hbi|].
    intros x Hx. rewrite Hnth. now apply Hmax.
  - cbn [argmax_from].
    replace (pre ++ y :: rest) with ((pre ++ [y]) ++ rest)
      by (now rewrite <- app_assoc).
    replace (S (length pre)) with (length (pre ++ [y]))
      by (rewrite length_app; cbn; lia).
    destruct (Qltb bv y) eqn:E.
    + apply Qltb_lt in E. apply IH.
      * rewrite length_app. cbn. lia.
      * rewrite app_nth2 by lia. now rewrite Nat.sub_diag.
      * intros x Hx. apply in_app_or in Hx. destruct Hx as [Hx|[<-|[]]].
        -- apply Hmax in Hx. lra.
        -- lra.
    + apply Qltb_ge in E. apply IH.
      * rewrite length_app. cbn. lia.
      * now rewrite app_nth1 by exact Hbi.
      * intros x Hx. apply in_app_or in Hx. destruct Hx as [Hx|[<-|[]]].
        -- now apply Hmax.
        -- exact E.
Qed.

Lemma argmax_spec (row : list Q) :
  row <> [] ->
  exists i,
    argmax row = Some i /\ (i < length row)%nat /\
    forall x, In x row -> x <= nth i row 0.
Proof.
  destruct row as [|y rest]; [congruence|]. intros _.
  exists (argmax_from 1 0 y rest). split; [reflexivity|].
  apply (argmax_from_spec rest [y] 0%nat y).
  - cbn. lia.
  - reflexivity.
  - intros x [<-|[]]. lra.
Qed.

(** On rows that are not empty the predictions exist, and those equal to
    their targets are the hits. *)
Lemma argmax_rows_hits p (b : list example) :
  (forall ex, In ex b -> forward_eval p ex <> []) ->
  exists pred,
    argmax_rows (map (forward_eval p) b) = Some pred /\
    count_eq pred (map label b) = hits p b.
Proof.
  induction b as [|a b IH]; intro Hne.
  - exists []. now split.
  - destruct IH as [pred [Hp Hc]]; [intros ex H; apply Hne; now right|].
    assert (Ha : forward_eval p a <> []) by (apply Hne; now left).
    destruct (argmax (forward_eval p a)) as [i|] eqn:Ei.
    2:{ unfold argmax in Ei. destruct (forward_eval p a); congruence. }
    exists (Z.of_nat i :: pred). split.
    + cbn [map argmax_rows]. now rewrite Ei, Hp.
    + unfold count_eq, hits in *. cbn [map combine filter fst snd].
      unfold hit at 1. rewrite Ei.
      destruct (Z.of_nat i =? label a)%Z; cbn [length]; lia.
Qed.

(** The loop of [test]: the network and the history are untouched, the
    loss grows by the loss of the set, the count by its hits. *)
Lemma test_loop_run dev :
  forall bs i tl c w,
    (forall ex, In ex (concat bs) -> forward_eval (net w) ex <> []) ->
    exists t l,
      test_loop dev i bs tl c w =
      (mkWorld (net w) (net_device w) (history w) (trace w ++ t),
       Ok (l, (c + hits (net w) (concat bs))%Z))
      /\ l == tl + whole_set_loss (net w) (concat bs)
      /\ Forall (fun e => is_optimizer_step e = false) t.
Proof.
  induction bs as [|b rest IH]; intros i tl c w Hne.
  - exists [], tl. cbn. rewrite app_nil_r, world_eta, Z.add_0_r.
    repeat split; [|constructor]. unfold whole_set_loss, criterion_sum.
    cbn. lra.
  - cbn [test_loop concat] in *.
    destruct (argmax_rows_hits (net w) b) as [pred [Hp Hc]].
    { intros ex H. apply Hne, in_or_app. now left. }
    unfold bind at 1. unfold emit at 1. unfold bind at 1.
    unfold get_net at 1. cbn [net net_device history trace].
    unfold bind at 1. unfold emit at 1. cbn [net net_device history trace].
    unfold bind at 1. unfold emit at 1. cbn [net net_device history trace].
    rewrite Hp.
    match goal with |- context [test_loop _ _ rest ?a ?k ?w1] =>
      destruct (IH (i + 1)%Z a k w1) as [t [l [Hrun [Hl Ht]]]] end.
    { cbn [net]. intros ex H. apply Hne, in_or_app. now right. }
    cbn [net net_device history trace] in Hrun, Hl.
    exists ([EvToDevice dev i; EvForward; EvLoss] ++ t), l. split; [|split].
    + rewrite Hrun. rewrite <- !app_assoc. cbn [app].
      rewrite Hc, hits_app. do 3 f_equal. lia.
    + rewrite Hl, whole_set_loss_app. unfold whole_set_loss. lra.
    + repeat constructor. exact Ht.
Qed.

(** What [test] does on a set that is not empty and whose rows of scores
    are not empty. *)
Lemma test_run dev ds bsz w :
  (0 < bsz)%Z -> ds <> [] ->
  (forall ex, In ex ds -> forward_eval (net w) ex <> []) ->
  let n := Z.of_nat (length ds) in
  exists t l,
    test dev (mkLoader ds bsz false) w =
    (mkWorld (net w) (net_device w)
       (mkHistory (train_loss (history w))
          (test_loss (history w) ++ [l / inject_Z n])
          (test_acc (history w) ++
             [inject_Z (hits (net w) ds) / inject_Z n]))
       (trace w ++ t),
     Ok tt)
    /\ l == whole_set_loss (net w) ds
    /\ Forall (fun e => is_optimizer_step e = false) t.
Proof.
  intros Hb Hds Hne n. unfold test.
  erewrite bind_ok by (unfold emit; reflexivity).
  destruct (test_loop_run dev (batches (mkLoader ds bsz false) 0) 0%Z 0 0%Z
              (mkWorld (net w) (net_device w) (history w)
                 (trace w ++ [EvEvalMode])))
    as [t [l [Hrun [Hl Ht]]]].
  { cbn [net]. now rewrite concat_batches. }
  cbn [net net_device history trace] in Hrun, Hl.
  rewrite concat_batches in Hrun, Hl by exact Hb.
  rewrite (bind_ok _ _ _ _ _ Hrun).
  cbn [loader_dataset fst snd]. fold n.
  assert (En : (n =? 0)%Z = false).
  { apply Z.eqb_neq. unfold n. destruct ds; [congruence|cbn; lia]. }
  rewrite En.
  exists ([EvEvalMode] ++ t ++
          [EvPrint (MsgTestSet (l / inject_Z n) (hits (net w) ds) n);
           EvLogInfo (MsgTestSet (l / inject_Z n) (hits (net w) ds) n)]), l.
  split; [|split].
  - unfold append_test_loss, append_test_acc, bind, emit, get_history,
      set_history, ret.
    cbn [net net_device history trace train_loss test_loss test_acc Z.add].
    rewrite <- !app_assoc. reflexivity.
  - rewrite Hl. lra.
  - apply Forall_app. split; [repeat constructor|].
    apply Forall_app. split; [exact Ht|repeat constructor].
Qed.

(** C4.  On every test set (not empty, with rows of scores that are not
    empty) [test] returns and records as accuracy the number of examples
    whose predicted class, the index of a maximal score of theirs, is
    their label, divided by the size of the set; it leaves the network
    alone.
    In particular, on ten examples of which three carry label 0, with a
    network that always predicts class 0, the recorded accuracy is 3/10,
    that is 0.3. *)
Theorem test_accuracy_is_hits_over_size
    (dev : device) (ds : list example) (bsz : Z) (w : World) :
  (0 < bsz)%Z -> ds <> [] ->
  (forall ex, In ex ds -> forward_eval (net w) ex <> []) ->
  let n := Z.of_nat (length ds) in
  exists w',
    test dev (mkLoader ds bsz false) w = (w', Ok tt)
    /\ net w' = net w
    /\ (forall ex, In ex ds ->
        exists i,
          argmax (forward_eval (net w) ex) = Some i
          /\ (i < length (forward_eval (net w) ex))%nat
          /\ (forall x, In x (forward_eval (net w) ex) ->
              x <= nth i (forward_eval (net w) ex) 0)
          /\ hit (net w) ex = (Z.of_nat i =? label ex)%Z)
    /\ test_acc (history w') =
       test_acc (history w) ++ [inject_Z (hits (net w) ds) / inject_Z n]
    /\ (length ds = 10%nat ->
        (forall ex, In ex ds ->
           argmax (forward_eval (net w) ex) = Some 0%nat) ->
        length (filter (fun ex => (label ex =? 0)%Z) ds) = 3%nat ->
        test_acc (history w') = test_acc (history w) ++ [3 # 10]).
Proof.
  intros Hb Hds Hne n.
  destruct (test_run dev ds bsz w Hb Hds Hne) as [t [l [Hrun _]]].
  eexists. split; [exact Hrun|]. cbn [net history test_acc].
  split; [reflexivity|]. split.
  { intros ex Hin.
    destruct (argmax_spec (forward_eval (net w) ex) (Hne ex Hin))
      as [i [Hi [Hlt Hmax]]].
    exists i. unfold hit. rewrite Hi. now repeat split. }
  split; [reflexivity|].
  intros Hlen Hzero Hthree.
  assert (Hh : hits (net w) ds = 3%Z).
  { unfold hits.
    rewrite (filter_ext_in (hit (net w)) (fun ex => (label ex =? 0)%Z)).
    - now rewrite Hthree.
    - intros ex Hin. unfold hit. now rewrite (Hzero ex Hin). }
  fold n. unfold n. rewrite Hh, Hlen. reflexivity.
Qed.

End TestFacts.

(** ** The driver *)

Section MainFacts.

Context `{C : Collaborators}.

(** *** An unsupported dataset selector *)

Lemma select_dataset_unsupported args w :
  dataset args <> 0%Z -> dataset args <> 1%Z -> dataset args <> 2%Z ->
  select_dataset args w =
  (mkWorld (net w) (net_device w) (history w)
     (trace w ++ [EvPrint MsgUnsupportedDataset]),
   Exit 1).
Proof.
  intros H0 H1 H2. unfold select_dataset.
  apply Z.eqb_neq in H0, H1, H2. now rewrite H0, H1, H2.
Qed.

Lemma select_dataset_supported args w :
  dataset args = 0%Z \/ dataset args = 1%Z \/ dataset args = 2%Z ->
  select_dataset args w = (w, Ok tt).
Proof.
  unfold select_dataset. intros [H|[H|H]]; now rewrite H.
Qed.

(** C7 (as amended).  For every dataset selector other than 0, 1 and 2
    the program leaves with status 1 before it loads any data, builds the
    network, trains, evaluates or reports, and with an empty history.  By
    then the run directory and the log file exist, and on a machine with an
    accelerator the probe tensors were allocated and released. *)
Theorem unsupported_dataset_exits_before_work
    (e : Env) (argv : list cli_opt) (args : Args) :
  parse_args argv = inl args ->
  dataset args <> 0%Z -> dataset args <> 1%Z -> dataset args <> 2%Z ->
  let r := program e argv in
  snd r = Exit 1
  /\ trace (fst r) =
     [EvMakedir (savedir e);
      EvLogOpen (path_join e (savedir e) "train.log");
      EvLogInfo (MsgArgs args)]
     ++ (if cuda_available e
         then [EvCudaAlloc; EvCudaAlloc; EvPrint MsgCudaInitTest;
               EvCudaFree; EvCudaEmptyCache]
         else [])
     ++ (if use_cuda e args then [EvSeedGenerator] else [])
     ++ [EvPrint MsgUnsupportedDataset]
  /\ forallb (fun ev => negb (is_work ev)) (trace (fst r)) = true
  /\ history (fst r) = history0.
Proof.
  intros Hparse H0 H1 H2 r. unfold r, program, main. rewrite Hparse.
  unfold main_body, module_init, probe.
  unfold use_cuda. destruct (cuda_available e), (no_cuda args);
    cbn [negb andb]; unfold bind, emit, ret;
    cbn [net net_device history trace world0];
    rewrite select_dataset_unsupported by assumption;
    cbn [net net_device history trace fst snd app];
    repeat split.
Qed.

(** *** The timing harness *)

Lemma time_samples_cpu n w :
  time_samples Cpu n w =
  (mkWorld (net w) (net_device w) (history w)
     (trace w ++ repeat EvForward n),
   Ok tt).
Proof.
  revert w. induction n as [|n IH]; intro w; cbn [time_samples repeat].
  - unfold ret. now rewrite app_nil_r, world_eta.
  - unfold bind, emit. cbn [device_eqb]. unfold ret. rewrite IH.
    cbn [net net_device history trace]. now rewrite <- app_assoc.
Qed.

Lemma time_on_cpu e args w :
  testset e (dataset args) <> [] ->
  time_on e args Cpu w =
  (mkWorld (net w) (net_device w) (history w)
     (trace w ++ cpu_timing (net_device w)
                   (length (testset e (dataset args)))),
   Ok tt).
Proof.
  intro Hne. unfold time_on.
  assert (En : (Z.of_nat (length (testset e (dataset args))) =? 0)%Z = false).
  { apply Z.eqb_neq. destruct (testset e (dataset args));
      [congruence|cbn; lia]. }
  rewrite En. cbn [device_eqb andb].
  unfold bind at 1. unfold emit at 1.
  unfold bind at 1. unfold get_device at 1.
  cbn [net net_device history trace].
  unfold bind at 1. unfold emit at 1. cbn [net net_device history trace].
  unfold bind at 1. unfold emit at 1. cbn [net net_device history trace].
  unfold bind at 1. unfold set_device at 1.
  cbn [net net_device history trace].
  unfold bind at 1. unfold emit at 1. cbn [net net_device history trace].
  unfold bind at 1. unfold emit at 1. cbn [net net_device history trace].
  unfold bind at 1. unfold emit at 1. cbn [net net_device history trace].
  unfold bind at 1. unfold ret at 1. cbn [net net_device history trace].
  unfold bind at 1. unfold emit at 1. cbn [net net_device history trace].
  unfold bind at 1. rewrite time_samples_cpu.
  cbn [net net_device history trace].
  unfold bind, emit, set_device, ret. cbn [net net_device history trace].
  unfold cpu_timing. rewrite <- !app_assoc. reflexivity.
Qed.

Lemma time_on_cuda_unavailable e args w :
  cuda_available e = false ->
  time_on e args Cuda w =
  (mkWorld (net w) (net_device w) (history w)
     (trace w ++ [EvPrint (MsgTimingOn Cuda)]),
   Raise CudaUnavailable).
Proof.
  intro Hc. unfold time_on. rewrite Hc. cbn [device_eqb andb negb].
  unfold bind, emit, get_device, raise. reflexivity.
Qed.

(** C8 (the code at the failing input).  With [calc_time] set, no
    accelerator and a test set that is not empty, the harness times the
    CPU, restores the network, announces the accelerator and then fails:
    the run ends with an uncaught error instead of skipping the backend. *)
Theorem timing_fails_without_accelerator
    (e : Env) (args : Args) (w : World) :
  calc_time args = true -> cuda_available e = false ->
  testset e (dataset args) <> [] ->
  calc_times e args w =
  (mkWorld (net w) (net_device w) (history w)
     (trace w
      ++ cpu_timing (net_device w) (length (testset e (dataset args)))
      ++ [EvPrint (MsgTimingOn Cuda)]),
   Raise CudaUnavailable).
Proof.
  intros Hcalc Hcuda Hne. unfold calc_times. rewrite Hcalc.
  cbn [for_each_device].
  rewrite (bind_ok _ _ _ _ _ (time_on_cpu e args w Hne)).
  erewrite bind_raise by (apply time_on_cuda_unavailable; exact Hcuda).
  cbn [net net_device history trace]. now rewrite <- app_assoc.
Qed.

(** *** The history *)

Lemma train_loop_keeps args dev rate epoch bs :
  forall i acc, keeps_history (train_loop args dev rate epoch i bs acc).
Proof.
  induction bs as [|b rest IH]; intros i acc; cbn [train_loop].
  - apply keeps_ret.
  - apply keeps_bind; [unfold train_batch; keeps|intro loss].
    repeat apply keeps_if; keeps; apply IH.
Qed.

Lemma test_loop_keeps dev bs :
  forall i tl c, keeps_history (test_loop dev i bs tl c).
Proof.
  induction bs as [|b rest IH]; intros i tl c; cbn [test_loop].
  - apply keeps_ret.
  - keeps. destruct (argmax_rows _); [apply IH|apply keeps_raise].
Qed.

(** The training pass appends one training loss when it returns, and
    nothing when it does not. *)
Lemma train_pass_history args dev rate bs epoch w :
  match train_pass args dev rate bs epoch w with
  | (w', Ok tl) =>
      history w' =
      mkHistory (train_loss (history w) ++ [tl]) (test_loss (history w))
        (test_acc (history w))
  | (w', _) => history w' = history w
  end.
Proof.
  unfold train_pass. erewrite bind_ok by (unfold emit; reflexivity).
  unfold bind at 1.
  match goal with |- context [train_loop ?a ?d ?r ?ep ?i bs ?acc ?w1] =>
    pose proof (train_loop_keeps a d r ep bs i acc w1) as K;
    destruct (train_loop a d r ep i bs acc w1) as [w2 [tl|x|x]] end;
    cbn [fst history] in K; try exact K.
  unfold append_train_loss, bind, get_history, set_history, ret.
  cbn [history]. now rewrite K.
Qed.

(** The evaluation pass appends one test loss and one accuracy when it
    returns, and nothing when it does not. *)
Lemma test_history dev loader w :
  match test dev loader w with
  | (w', Ok _) =>
      exists x y,
        history w' =
        mkHistory (train_loss (history w)) (test_loss (history w) ++ [x])
          (test_acc (history w) ++ [y])
  | (w', _) => history w' = history w
  end.
Proof.
  unfold test. erewrite bind_ok by (unfold emit; reflexivity).
  unfold bind at 1.
  match goal with |- context [test_loop ?d ?i ?bs ?tl ?c ?w1] =>
    pose proof (test_loop_keeps d bs i tl c w1) as K;
    destruct (test_loop d i bs tl c w1) as [w2 [r|x|x]] end;
    cbn [fst history] in K; try exact K.
  destruct (Z.of_nat (length (loader_dataset loader)) =? 0)%Z.
  - exact K.
  - unfold append_test_loss, append_test_acc, bind, emit, get_history,
      set_history, ret.
    cbn [history train_loss test_loss test_acc]. rewrite K.
    eexists. eexists. reflexivity.
Qed.

Lemma scheduler_step_keeps args sch m :
  keeps_history (scheduler_step args sch m).
Proof. unfold scheduler_step. keeps. Qed.

Lemma extends_by_refl h : extends_by 0 h h.
Proof.
  exists [], [], []. rewrite !app_nil_r. now repeat split.
Qed.

Lemma extends_by_step k h h1 h2 :
  extends_by 1 h h1 -> extends_by k h1 h2 -> extends_by (S k) h h2.
Proof.
  intros [a [b [c [La [Lb [Lc [Ha [Hb Hc]]]]]]]]
         [a' [b' [c' [La' [Lb' [Lc' [Ha' [Hb' Hc']]]]]]]].
  exists (a ++ a'), (b ++ b'), (c ++ c').
  rewrite !length_app, La, Lb, Lc, La', Lb', Lc', Ha', Hb', Hc', Ha, Hb, Hc.
  now rewrite <- !app_assoc.
Qed.

(** A completed epoch adds one entry to each series. *)
Lemma epoch_body_history e args train_loader test_loader sch epoch w w' sch' :
  epoch_body e args train_loader test_loader sch epoch w = (w', Ok sch') ->
  extends_by 1 (history w) (history w').
Proof.
  unfold epoch_body. intro H.
  apply bind_ok_inv in H. destruct H as [w1 [tl [Htrain H]]].
  apply bind_ok_inv in H. destruct H as [w2 [u [Htest Hstep]]].
  pose proof (train_pass_history args (train_device e args)
                (Scheduler.lr sch) (batches train_loader epoch) epoch w) as K1.
  unfold train in Htrain. rewrite Htrain in K1.
  pose proof (test_history (train_device e args) test_loader w1) as K2.
  rewrite Htest in K2. destruct K2 as [x [y K2]].
  pose proof (scheduler_step_keeps args sch tl w2) as K3.
  rewrite Hstep in K3. cbn [fst] in K3.
  exists [tl], [x], [y]. rewrite K3, K2, K1. cbn. now repeat split.
Qed.

Lemma epoch_loop_history e args train_loader test_loader range :
  forall sch w w' sch',
    epoch_loop e args train_loader test_loader sch range w = (w', Ok sch') ->
    extends_by (length range) (history w) (history w').
Proof.
  induction range as [|epoch rest IH]; intros sch w w' sch' H.
  - cbn in H. injection H as <- _. apply extends_by_refl.
  - cbn [epoch_loop] in H. apply bind_ok_inv in H.
    destruct H as [w1 [sch1 [Hbody Hrest]]].
    cbn [length]. eapply extends_by_step.
    + eapply epoch_body_history. exact Hbody.
    + eapply IH. exact Hrest.
Qed.

Lemma module_init_keeps e : keeps_history (module_init e).
Proof. unfold module_init. keeps. Qed.

Lemma probe_keeps e args : keeps_history (probe e args).
Proof. unfold probe. keeps. Qed.

Lemma select_dataset_keeps args : keeps_history (select_dataset args).
Proof. unfold select_dataset. keeps. Qed.

Lemma load_keeps e args : keeps_history (load e args).
Proof. unfold load, make_loader. keeps. Qed.

Lemma build_keeps e args : keeps_history (build e args).
Proof.
  unfold build. keeps. destruct (Scheduler.init _ _); keeps.
Qed.

Lemma report_keeps e args : keeps_history (report e args).
Proof.
  unfold report. keeps. destruct (test_acc _); keeps.
Qed.

Lemma save_checkpoint_keeps e args : keeps_history (save_checkpoint e args).
Proof. unfold save_checkpoint. keeps. Qed.

Lemma time_samples_keeps dev n : keeps_history (time_samples dev n).
Proof. induction n as [|n IH]; cbn [time_samples]; keeps. Qed.

Lemma calc_times_keeps e args : keeps_history (calc_times e args).
Proof.
  unfold calc_times, for_each_device, time_on. keeps;
    apply time_samples_keeps.
Qed.

Lemma epoch_range_length args :
  length (epoch_range args) = Z.to_nat (epochs args).
Proof. unfold epoch_range. now rewrite length_map, length_seq. Qed.

(** The history of a run that completes holds one entry per epoch. *)
Lemma program_history e argv args w :
  parse_args argv = inl args -> program e argv = (w, Ok tt) ->
  extends_by (Z.to_nat (epochs args)) history0 (history w).
Proof.
  intros Hparse H. unfold program, main in H. rewrite Hparse in H.
  apply bind_ok_inv in H. destruct H as [w1 [u1 [H1 H]]].
  unfold main_body in H.
  apply bind_ok_inv in H. destruct H as [w2 [u2 [H2 H]]].
  apply bind_ok_inv in H. destruct H as [w3 [u3 [H3 H]]].
  apply bind_ok_inv in H. destruct H as [w4 [loaders [H4 H]]].
  apply bind_ok_inv in H. destruct H as [w5 [sch [H5 H]]].
  unfold train_and_report in H.
  apply bind_ok_inv in H. destruct H as [w6 [sch' [H6 H]]].
  apply bind_ok_inv in H. destruct H as [w7 [u7 [H7 H]]].
  apply bind_ok_inv in H. destruct H as [w8 [u8 [H8 H9]]].
  pose proof (module_init_keeps e (world0 e)) as K1. rewrite H1 in K1.
  pose proof (probe_keeps e args w1) as K2. rewrite H2 in K2.
  pose proof (select_dataset_keeps args w2) as K3. rewrite H3 in K3.
  pose proof (load_keeps e args w3) as K4. rewrite H4 in K4.
  pose proof (build_keeps e args w4) as K5. rewrite H5 in K5.
  pose proof (epoch_loop_history _ _ _ _ _ _ _ _ _ H6) as K6.
  pose proof (report_keeps e args w6) as K7. rewrite H7 in K7.
  pose proof (save_checkpoint_keeps e args w7) as K8. rewrite H8 in K8.
  pose proof (calc_times_keeps e args w8) as K9. rewrite H9 in K9.
  cbn [fst world0 history] in *.
  rewrite K9, K8, K7. rewrite K5, K4, K3, K2, K1 in K6.
  now rewrite epoch_range_length in K6.
Qed.

(** C9.  The history is append-only.  A run that completes has added
    exactly one entry per epoch to each of the three series, and every
    completed stretch of epochs extends the three series it found by one
    entry per epoch, leaving the earlier entries as they were.  The
    training pass appends one training loss and the evaluation pass one
    test loss and one accuracy when they return, and nothing when they
    fail; no other part of the program touches the history. *)
Theorem history_is_append_only (e : Env) (args : Args) :
  (forall argv w,
     parse_args argv = inl args -> program e argv = (w, Ok tt) ->
     extends_by (Z.to_nat (epochs args)) history0 (history w))
  /\ (forall train_loader test_loader sch range w w' sch',
        epoch_loop e args train_loader test_loader sch range w
        = (w', Ok sch') ->
        extends_by (length range) (history w) (history w'))
  /\ (forall dev rate bs epoch w,
        match train_pass args dev rate bs epoch w with
        | (w', Ok tl) =>
            history w' =
            mkHistory (train_loss (history w) ++ [tl])
              (test_loss (history w)) (test_acc (history w))
        | (w', _) => history w' = history w
        end)
  /\ (forall dev loader w,
        match test dev loader w with
        | (w', Ok _) =>
            exists x y,
              history w' =
              mkHistory (train_loss (history w))
                (test_loss (history w) ++ [x]) (test_acc (history w) ++ [y])
        | (w', _) => history w' = history w
        end)
  /\ keeps_history (module_init e)
  /\ keeps_history (probe e args)
  /\ keeps_history (select_dataset args)
  /\ keeps_history (load e args)
  /\ keeps_history (build e args)
  /\ (forall sch m, keeps_history (scheduler_step args sch m))
  /\ keeps_history (report e args)
  /\ keeps_history (save_checkpoint e args)
  /\ keeps_history (calc_times e args).
Proof.
  split; [intros argv w; apply program_history|].
  split; [intros tl tsl sch range; apply epoch_loop_history|].
  split; [intros; apply train_pass_history|].
  split; [intros; apply test_history|].
  split; [apply module_init_keeps|].
  split; [apply probe_keeps|].
  split; [apply select_dataset_keeps|].
  split; [apply load_keeps|].
  split; [apply build_keeps|].
  split; [apply scheduler_step_keeps|].
  split; [apply report_keeps|].
  split; [apply save_checkpoint_keeps|apply calc_times_keeps].
Qed.

(** *** The checkpoint *)

Lemma store_save_model a o :
  save_model a = true -> save_model (store a o) = true.
Proof. destruct o; cbn; auto. Qed.

Lemma fold_store_save_model seen :
  forall a, save_model a = true -> save_model (fold_left store seen a) = true.
Proof.
  induction seen as [|o seen IH]; intros a H; cbn.
  - exact H.
  - apply IH. now apply store_save_model.
Qed.

Lemma parse_args_save_model argv args :
  parse_args argv = inl args -> save_model args = true.
Proof.
  unfold parse_args. destruct (before_help argv) as [seen help].
  destruct help; [discriminate|].
  destruct (existsb is_dataset seen); [|discriminate].
  destruct (existsb is_unrecognized seen); [discriminate|].
  cbn [negb]. intro H. injection H as <-.
  now apply fold_store_save_model.
Qed.

Lemma save_checkpoint_run e args w :
  save_model args = true ->
  save_checkpoint e args w =
  (mkWorld (net w) (net_device w) (history w)
     (trace w ++ [EvMakedirs weights_dir;
                  EvSaveCheckpoint (save_path e args);
                  EvPrint (MsgSaved (save_path e args))]),
   Ok tt).
Proof.
  intro H. unfold save_checkpoint. rewrite H.
  unfold bind, emit. cbn [net net_device history trace].
  now rewrite <- !app_assoc.
Qed.

(** The record of effects only grows. *)
Lemma grows_ret {A} (a : A) : emits (fun _ => True) (ret a).
Proof. intro w. exists []. now rewrite app_nil_r. Qed.

Lemma grows_raise {A} (x : exn) : emits (fun _ => True) (@raise _ A x).
Proof. intro w. exists []. now rewrite app_nil_r. Qed.

Lemma grows_emit ev : emits (fun _ => True) (emit ev).
Proof. intro w. exists [ev]. split; [reflexivity|now constructor]. Qed.

Lemma grows_get_device : emits (fun _ => True) get_device.
Proof. intro w. exists []. now rewrite app_nil_r. Qed.

Lemma grows_set_device d : emits (fun _ => True) (set_device d).
Proof. intro w. exists []. cbn. now rewrite app_nil_r. Qed.

Lemma grows_bind {A B} (m : M A) (k : A -> M B) :
  emits (fun _ => True) m -> (forall a, emits (fun _ => True) (k a)) ->
  emits (fun _ => True) (bind m k).
Proof.
  intros Hm Hk w. unfold bind. destruct (Hm w) as [t [Ht _]].
  destruct (m w) as [w1 [a|x|x]]; cbn [fst] in *.
  - destruct (Hk a w1) as [t' [Ht' _]]. exists (t ++ t').
    rewrite Ht', Ht, app_assoc. split; [reflexivity|].
    apply Forall_forall. auto.
  - exists t. split; [exact Ht|apply Forall_forall; auto].
  - exists t. split; [exact Ht|apply Forall_forall; auto].
Qed.

Lemma grows_if {A} (b : bool) (m1 m2 : M A) :
  emits (fun _ => True) m1 -> emits (fun _ => True) m2 ->
  emits (fun _ => True) (if b then m1 else m2).
Proof. now destruct b. Qed.

Lemma time_samples_grows dev n : emits (fun _ => True) (time_samples dev n).
Proof.
  induction n as [|n IH]; cbn [time_samples].
  - apply grows_ret.
  - apply grows_bind; [apply grows_emit|intros _].
    apply grows_bind; [|intros _; exact IH].
    apply grows_if; [apply grows_emit|apply grows_ret].
Qed.

Lemma calc_times_grows e args : emits (fun _ => True) (calc_times e args).
Proof.
  unfold calc_times, for_each_device, time_on.
  repeat first
    [ apply grows_bind; [|intro]
    | apply grows_if
    | apply grows_emit | apply grows_ret | apply grows_raise
    | apply grows_get_device | apply grows_set_device
    | apply time_samples_grows ].
Qed.

(** C10.  On every command line that parses, [save_model] is true: its
    default is [True] and the flag can only store [True].  Hence, once the
    epochs and the figure are done, the checkpoint is written before the
    timings start, and a run that completes has written it.  Its path is
    the fixed directory [weights_dir], rooted at a drive, followed by a
    name made of the dataset and the number of epochs; it does not depend
    on the time of the run and does not lie under the run directory. *)
Theorem checkpoint_is_always_written (argv : list cli_opt) (args : Args) :
  parse_args argv = inl args ->
  save_model args = true
  /\ (forall e loaders sch w w1 u,
        (epoch_loop e args (fst loaders) (snd loaders) sch (epoch_range args)
         ;; report e args) w = (w1, Ok u) ->
        train_and_report e args loaders sch w =
        calc_times e args
          (mkWorld (net w1) (net_device w1) (history w1)
             (trace w1 ++ [EvMakedirs weights_dir;
                           EvSaveCheckpoint (save_path e args);
                           EvPrint (MsgSaved (save_path e args))])))
  /\ (forall e w,
        program e argv = (w, Ok tt) ->
        In (EvSaveCheckpoint (save_path e args)) (trace w))
  /\ (forall e,
        save_path e args = (weights_dir ++ sep e ++ filename args)%string
        /\ drive_rooted (save_path e args) = true
        /\ prefix (savedir e) (save_path e args) = false).
Proof.
  intro Hparse.
  pose proof (parse_args_save_model argv args Hparse) as Hsave.
  split; [exact Hsave|]. split; [|split].
  - intros e loaders sch w w1 u H. unfold train_and_report.
    apply bind_ok_inv in H. destruct H as [w0 [sch' [Hloop Hrep]]].
    rewrite (bind_ok _ _ _ _ _ Hloop), (bind_ok _ _ _ _ _ Hrep).
    now rewrite (bind_ok _ _ _ _ _ (save_checkpoint_run e args w1 Hsave)).
  - intros e w H. unfold program, main in H. rewrite Hparse in H.
    apply bind_ok_inv in H. destruct H as [w1 [u1 [_ H]]].
    unfold main_body in H.
    apply bind_ok_inv in H. destruct H as [w2 [u2 [_ H]]].
    apply bind_ok_inv in H. destruct H as [w3 [u3 [_ H]]].
    apply bind_ok_inv in H. destruct H as [w4 [loaders [_ H]]].
    apply bind_ok_inv in H. destruct H as [w5 [sch [_ H]]].
    unfold train_and_report in H.
    apply bind_ok_inv in H. destruct H as [w6 [sch' [_ H]]].
    apply bind_ok_inv in H. destruct H as [w7 [u7 [_ H]]].
    apply bind_ok_inv in H. destruct H as [w8 [u8 [H8 H9]]].
    rewrite (save_checkpoint_run e args w7 Hsave) in H8.
    injection H8 as <- _.
    destruct (calc_times_grows e args
                (mkWorld (net w7) (net_device w7) (history w7)
                   (trace w7 ++ [EvMakedirs weights_dir;
                                 EvSaveCheckpoint (save_path e args);
                                 EvPrint (MsgSaved (save_path e args))])))
      as [t [Ht _]].
    rewrite H9 in Ht. cbn [fst trace] in Ht. rewrite Ht.
    apply in_or_app. left. apply in_or_app. right. right. now left.
  - intro e. repeat split.
Qed.

End MainFacts.

(** ** Concrete runs *)

(** Three batches of one example, the defaults of the command line. *)
Lemma train_processes_every_batch_and_returns_sum_witness :
  let args := defaults 0 in
  let bs := [[(0, 0%Z)]; [(0, 1%Z)]; [(0, 1%Z)]] in
  log_interval args <> 0%Z /\ dry_run args = false /\
  exists t,
    snd (train_pass (C:=toy) args Cpu (1 # 100) bs 1 toy_world)
    = Ok (running_sum (batch_losses (C:=toy) (1 # 100) 1 bs))
    /\ trace (fst (train_pass (C:=toy) args Cpu (1 # 100) bs 1 toy_world))
       = t
    /\ optimizer_steps t = 3%nat.
Proof.
  split; [discriminate|]. split; [reflexivity|].
  destruct (train_processes_every_batch_and_returns_sum (C:=toy)
              (defaults 0) Cpu (1 # 100)
              [[(0, 0%Z)]; [(0, 1%Z)]; [(0, 1%Z)]] 1 toy_world)
    as [t [Hrun [_ Hsteps]]]; [discriminate|reflexivity|].
  exists t. rewrite Hrun. split; [reflexivity|]. split; [reflexivity|].
  exact Hsteps.
Defined.

(** C3, the claim as it stands, fails with [--dry-run]: of three batches
    only the first gets an optimizer step, and the value returned is its
    loss, not the sum over the three. *)
Lemma train_dry_run_leaves_batches_unprocessed :
  let args := store (defaults 0) OptDryRun in
  let bs := [[(0, 0%Z)]; [(0, 1%Z)]; [(0, 1%Z)]] in
  let r := train_pass (C:=toy) args Cpu (1 # 100) bs 1 toy_world in
  length bs = 3%nat
  /\ optimizer_steps (trace (fst r)) = 1%nat
  /\ snd r = Ok 1
  /\ ~ 1 == running_sum (batch_losses (C:=toy) (1 # 100) 1 bs).
Proof.
  repeat split. vm_compute. discriminate.
Qed.

(** A dry run over three batches with the default interval. *)
Lemma dry_run_stops_at_first_log_point_witness :
  let args := store (defaults 0) OptDryRun in
  let bs := [[(0, 0%Z)]; [(0, 1%Z)]; [(0, 1%Z)]] in
  dry_run args = true /\ log_interval args <> 0%Z /\
  exists t,
    snd (train_pass (C:=toy) args Cpu (1 # 100) bs 1 toy_world) = Ok (0 + 1)
    /\ trace (fst (train_pass (C:=toy) args Cpu (1 # 100) bs 1 toy_world))
       = t
    /\ optimizer_steps t = 1%nat.
Proof.
  split; [reflexivity|]. split; [discriminate|].
  destruct (dry_run_stops_at_first_log_point (C:=toy)
              (store (defaults 0) OptDryRun) Cpu (1 # 100)
              [[(0, 0%Z)]; [(0, 1%Z)]; [(0, 1%Z)]] 1 toy_world)
    as [t [Hrun [_ [Hsteps _]]]]; [reflexivity|discriminate|].
  exists t. rewrite Hrun. split; [reflexivity|]. split; [reflexivity|].
  exact Hsteps.
Defined.

(** C6, the claim as it stands, fails on configurations with [dry_run]
    set: with [--log-interval 0] the pass does not return, it raises on the
    first batch; with [--log-interval -3] it processes one batch, more than
    [log_interval + 1]. *)
Lemma dry_run_with_zero_log_interval_raises :
  let zero := store (store (defaults 0) OptDryRun) (OptLogInterval 0) in
  let neg := store (store (defaults 0) OptDryRun) (OptLogInterval (-3)) in
  let bs := [[(0, 0%Z)]; [(0, 1%Z)]] in
  dry_run zero = true /\ dry_run neg = true
  /\ snd (train_pass (C:=toy) zero Cpu (1 # 100) bs 1 toy_world)
     = Raise ZeroDivisionError
  /\ (log_interval neg + 1 <
      Z.of_nat (optimizer_steps
                  (trace (fst (train_pass (C:=toy) neg Cpu (1 # 100) bs 1
                                 toy_world)))))%Z.
Proof.
  repeat split.
Qed.

(** Ten examples, three of them of class 0, in batches of four. *)
Lemma test_accuracy_is_hits_over_size_witness :
  (0 < 4)%Z /\ ten_examples <> [] /\
  exists w',
    test (C:=toy) Cpu (@mkLoader toy ten_examples 4 false) toy_world
    = (w', Ok tt)
    /\ test_acc (history w') = [3 # 10].
Proof.
  split; [reflexivity|]. split; [discriminate|].
  destruct (test_accuracy_is_hits_over_size (C:=toy) Cpu ten_examples 4
              toy_world)
    as [w' [Hrun [_ [_ [_ Hten]]]]];
    [reflexivity|discriminate|intros ex _; discriminate|].
  exists w'. split; [exact Hrun|]. apply Hten.
  - reflexivity.
  - intros ex Hin. repeat (destruct Hin as [<-|Hin]; [reflexivity|]).
    destruct Hin.
  - reflexivity.
Defined.

(** The selector 3 on a machine without accelerator. *)
Lemma unsupported_dataset_exits_before_work_witness :
  parse_args [OptDataset 3] = inl (defaults 3) /\
  snd (program (C:=toy) (toy_env false) [OptDataset 3]) = Exit 1 /\
  history (fst (program (C:=toy) (toy_env false) [OptDataset 3])) = history0.
Proof.
  split; [reflexivity|].
  destruct (unsupported_dataset_exits_before_work (C:=toy) (toy_env false)
              [OptDataset 3] (defaults 3))
    as [Hexit [_ [_ Hhist]]];
    [reflexivity|discriminate|discriminate|discriminate|].
  split; [exact Hexit|exact Hhist].
Defined.

(** C7, the claim as it stands, fails: when the program leaves on the
    selector 3 it has created the run directory and opened the log file,
    and with an accelerator it has allocated tensors on it. *)
Lemma unsupported_dataset_allocates_before_exit :
  let r := program (C:=toy) (toy_env true) [OptDataset 3] in
  let r' := program (C:=toy) (toy_env false) [OptDataset 3] in
  snd r = Exit 1
  /\ In EvCudaAlloc (trace (fst r))
  /\ existsb is_allocation (trace (fst r)) = true
  /\ snd r' = Exit 1
  /\ In (EvMakedir "experiments\1700000000") (trace (fst r'))
  /\ existsb is_allocation (trace (fst r')) = true.
Proof.
  repeat split.
  - vm_compute. tauto.
  - vm_compute. tauto.
Qed.

(** Timing requested on a machine without accelerator. *)
Lemma timing_fails_without_accelerator_witness :
  let args := store (defaults 0) OptCalcTime in
  calc_time args = true /\ cuda_available (toy_env false) = false /\
  snd (calc_times (C:=toy) (toy_env false) args toy_world)
  = Raise CudaUnavailable.
Proof.
  split; [reflexivity|]. split; [reflexivity|].
  rewrite (timing_fails_without_accelerator (C:=toy) (toy_env false)
             (store (defaults 0) OptCalcTime) toy_world);
    [reflexivity|reflexivity|reflexivity|discriminate].
Defined.

(** Two epochs of the small instance, run to completion. *)
Lemma history_is_append_only_witness :
  let argv := [OptDataset 0; OptEpochs 2; OptBatchSize 2] in
  let r := program (C:=toy) (toy_env false) argv in
  snd r = Ok tt /\
  extends_by 2 history0 (history (fst r)).
Proof.
  split; [vm_compute; reflexivity|].
  destruct (history_is_append_only (C:=toy) (toy_env false)
              (store (store (store (defaults 0) (OptDataset 0)) (OptEpochs 2))
                 (OptBatchSize 2)))
    as [Hprog _].
  apply (Hprog [OptDataset 0; OptEpochs 2; OptBatchSize 2]).
  - reflexivity.
  - vm_compute. reflexivity.
Defined.

(** One epoch of the small instance, run to completion. *)
Lemma checkpoint_is_always_written_witness :
  let argv := [OptDataset 1; OptEpochs 1] in
  let e := toy_env false in
  exists args,
    parse_args argv = inl args /\
    snd (program (C:=toy) e argv) = Ok tt /\
    In (EvSaveCheckpoint
          "D:\NCKHSV.2024-2025\MultiMediapipe\DD-Net-Pytorch\weights\SHREC_coarse_latest_epoch_1.pt")
       (trace (fst (program (C:=toy) e argv))).
Proof.
  exists (store (store (defaults 0) (OptDataset 1)) (OptEpochs 1)).
  split; [reflexivity|]. split; [vm_compute; reflexivity|].
  destruct (checkpoint_is_always_written (C:=toy)
              [OptDataset 1; OptEpochs 1]
              (store (store (defaults 0) (OptDataset 1)) (OptEpochs 1))
              eq_refl)
    as [_ [_ [Hprog _]]].
  apply (Hprog (toy_env false)). vm_compute. reflexivity.
Defined.

(** * Further properties of the driver *)

(** ** Frames: what a computation emits, keeps and how it leaves *)

Section FrameFacts.

Context `{C : Collaborators}.

Variable P : event -> Prop.

Lemma emits_ret {A} (a : A) : emits P (ret a).
Proof. intro w. exists []. split; [now rewrite app_nil_r|constructor]. Qed.

Lemma emits_raise {A} (x : exn) : emits P (@raise _ A x).
Proof. intro w. exists []. split; [now rewrite app_nil_r|constructor]. Qed.

Lemma emits_exit {A} (s : Z) : emits P (@sys_exit _ A s).
Proof. intro w. exists []. split; [now rewrite app_nil_r|constructor]. Qed.

Lemma emits_emit ev : P ev -> emits P (emit ev).
Proof. intros H w. exists [ev]. split; [reflexivity|now constructor]. Qed.

Lemma emits_get_net : emits P get_net.
Proof. intro w. exists []. split; [now rewrite app_nil_r|constructor]. Qed.

Lemma emits_set_net p : emits P (set_net p).
Proof.
  intro w. exists []. split; [cbn; now rewrite app_nil_r|constructor].
Qed.

Lemma emits_get_device : emits P get_device.
Proof. intro w. exists []. split; [now rewrite app_nil_r|constructor]. Qed.

Lemma emits_set_device d : emits P (set_device d).
Proof.
  intro w. exists []. split; [cbn; now rewrite app_nil_r|constructor].
Qed.

Lemma emits_get_history : emits P get_history.
Proof. intro w. exists []. split; [now rewrite app_nil_r|constructor]. Qed.

Lemma emits_set_history h : emits P (set_history h).
Proof.
  intro w. exists []. split; [cbn; now rewrite app_nil_r|constructor].
Qed.

Lemma emits_bind {A B} (m : M A) (k : A -> M B) :
  emits P m -> (forall a, emits P (k a)) -> emits P (bind m k).
Proof.
  intros Hm Hk w. unfold bind. destruct (Hm w) as [t [Ht Hall]].
  destruct (m w) as [w1 [a|x|x]]; cbn [fst] in *.
  - destruct (Hk a w1) as [t' [Ht' Hall']]. exists (t ++ t').
    rewrite Ht', Ht, app_assoc. split; [reflexivity|].
    apply Forall_app. now split.
  - now exists t.
  - now exists t.
Qed.

Lemma emits_if {A} (b : bool) (m1 m2 : M A) :
  emits P m1 -> emits P m2 -> emits P (if b then m1 else m2).
Proof. now destruct b. Qed.

End FrameFacts.

Section FrameFacts2.

Context `{C : Collaborators}.

Lemma keeps_net_ret {A} (a : A) : keeps_net (ret a).
Proof. intro w. reflexivity. Qed.

Lemma keeps_net_raise {A} (x : exn) : keeps_net (@raise _ A x).
Proof. intro w. reflexivity. Qed.

Lemma keeps_net_emit ev : keeps_net (emit ev).
Proof. intro w. reflexivity. Qed.

Lemma keeps_net_get_net : keeps_net get_net.
Proof. intro w. reflexivity. Qed.

Lemma keeps_net_get_history : keeps_net get_history.
Proof. intro w. reflexivity. Qed.

Lemma keeps_net_set_history h : keeps_net (set_history h).
Proof. intro w. reflexivity. Qed.

Lemma keeps_net_bind {A B} (m : M A) (k : A -> M B) :
  keeps_net m -> (forall a, keeps_net (k a)) -> keeps_net (bind m k).
Proof.
  intros Hm Hk w. unfold bind. specialize (Hm w).
  destruct (m w) as [w1 [a|x|x]]; cbn in *; try exact Hm.
  now rewrite (Hk a w1).
Qed.

Lemma keeps_net_if {A} (b : bool) (m1 m2 : M A) :
  keeps_net m1 -> keeps_net m2 -> keeps_net (if b then m1 else m2).
Proof. now destruct b. Qed.

Variable S : Z -> Prop.

Lemma exits_only_ret {A} (a : A) : exits_only S (ret a).
Proof. intros w s H. discriminate. Qed.

Lemma exits_only_raise {A} (x : exn) : exits_only S (@raise _ A x).
Proof. intros w s H. discriminate. Qed.

Lemma exits_only_exit {A} (s : Z) : S s -> exits_only S (@sys_exit _ A s).
Proof. intros Hs w s' H. cbn in H. now injection H as <-. Qed.

Lemma exits_only_emit ev : exits_only S (emit ev).
Proof. intros w s H. discriminate. Qed.

Lemma exits_only_get_net : exits_only S get_net.
Proof. intros w s H. discriminate. Qed.

Lemma exits_only_set_net p : exits_only S (set_net p).
Proof. intros w s H. discriminate. Qed.

Lemma exits_only_get_device : exits_only S get_device.
Proof. intros w s H. discriminate. Qed.

Lemma exits_only_set_device d : exits_only S (set_device d).
Proof. intros w s H. discriminate. Qed.

Lemma exits_only_get_history : exits_only S get_history.
Proof. intros w s H. discriminate. Qed.

Lemma exits_only_set_history h : exits_only S (set_history h).
Proof. intros w s H. discriminate. Qed.

Lemma exits_only_bind {A B} (m : M A) (k : A -> M B) :
  exits_only S m -> (forall a, exits_only S (k a)) ->
  exits_only S (bind m k).
Proof.
  intros Hm Hk w s. unfold bind. specialize (Hm w).
  destruct (m w) as [w1 [a|x|x]]; cbn [snd] in *.
  - apply Hk.
  - discriminate.
  - intro H. injection H as <-. now apply Hm.
Qed.

Lemma exits_only_if {A} (b : bool) (m1 m2 : M A) :
  exits_only S m1 -> exits_only S m2 ->
  exits_only S (if b then m1 else m2).
Proof. now destruct b. Qed.

End FrameFacts2.

Ltac emits :=
  repeat first
    [ apply emits_bind; [|intro]
    | apply emits_if
    | apply emits_ret | apply emits_raise | apply emits_exit
    | apply emits_get_net | apply emits_set_net
    | apply emits_get_device | apply emits_set_device
    | apply emits_get_history | apply emits_set_history
    | apply emits_emit; solve [exact I | exact eq_refl | reflexivity] ].

Ltac keeps_net :=
  repeat first
    [ apply keeps_net_bind; [|intro]
    | apply keeps_net_if
    | apply keeps_net_ret | apply keeps_net_raise | apply keeps_net_emit
    | apply keeps_net_get_net | apply keeps_net_get_history
    | apply keeps_net_set_history ].

Ltac exits_only :=
  repeat first
    [ apply exits_only_bind; [|intro]
    | apply exits_only_if
    | apply exits_only_ret | apply exits_only_raise | apply exits_only_emit
    | apply exits_only_get_net | apply exits_only_set_net
    | apply exits_only_get_device | apply exits_only_set_device
    | apply exits_only_get_history | apply exits_only_set_history ].

(** ** More on the training pass *)

Section TrainMore.

Context `{C : Collaborators}.

Lemma records_app t1 t2 : records (t1 ++ t2) = records t1 ++ records t2.
Proof. apply filter_app. Qed.

(** X1.  With [log_interval = 0] the modulo of line 62 divides by zero as
    soon as one batch has been processed.  On an empty iterable the pass
    still returns 0 and records it; otherwise it fails after the optimizer
    step of the first batch: the network has been updated once and nothing
    is recorded in the history. *)
Theorem zero_log_interval_fails_after_first_step
    (args : Args) (dev : device) (rate : Q) (bs : list (list example))
    (epoch : Z) (w : World) :
  log_interval args = 0%Z ->
  train_pass args dev rate bs epoch w =
  match bs with
  | [] =>
      (mkWorld (net w) (net_device w)
         (mkHistory (train_loss (history w) ++ [0]) (test_loss (history w))
            (test_acc (history w)))
         (trace w ++ [EvTrainMode]),
       Ok 0)
  | b :: _ =>
      (mkWorld (backward_step rate (net w) b) (net_device w) (history w)
         (trace w ++ EvTrainMode :: batch_ops dev 0),
       Raise ZeroDivisionError)
  end.
Proof.
  intro Hli. unfold train_pass.
  erewrite bind_ok by (unfold emit; reflexivity).
  destruct bs as [|b rest]; cbn [train_loop].
  - reflexivity.
  - erewrite (bind_raise (bind _ _)); cycle 1.
    { erewrite bind_ok by apply train_batch_run.
      rewrite Hli. cbn [Z.eqb]. unfold raise.
      cbn [net net_device history trace]. reflexivity. }
    now rewrite <- app_assoc.
Qed.

Lemma train_loop_records args dev rate epoch :
  log_interval args <> 0%Z -> dry_run args = false ->
  forall bs i acc w,
  exists t,
    trace (fst (train_loop args dev rate epoch i bs acc w)) = trace w ++ t
    /\ records t =
       progress_records (log_interval args) epoch i
         (batch_losses rate (net w) bs).
Proof.
  intros Hli Hdry.
  assert (E0 : (log_interval args =? 0)%Z = false) by now apply Z.eqb_neq.
  induction bs as [|b rest IH]; intros i acc w.
  - exists []. cbn. now rewrite app_nil_r.
  - cbn [train_loop].
    rewrite (bind_ok _ _ _ _ _ (train_batch_run dev rate i b w)).
    rewrite E0, Hdry. cbn [batch_losses progress_records].
    destruct (i mod log_interval args =? 0)%Z.
    + unfold bind at 1 2. unfold emit at 1 2.
      cbn [net net_device history trace].
      match goal with |- context [train_loop _ _ _ _ _ rest ?a ?w1] =>
        destruct (IH (i + 1)%Z a w1) as [t [Ht Hrec]] end.
      cbn [net net_device history trace] in Ht, Hrec.
      eexists. split.
      * rewrite Ht. rewrite <- !app_assoc. reflexivity.
      * rewrite !records_app, Hrec. reflexivity.
    + match goal with |- context [train_loop _ _ _ _ _ rest ?a ?w1] =>
        destruct (IH (i + 1)%Z a w1) as [t [Ht Hrec]] end.
      cbn [net net_device history trace] in Ht, Hrec.
      eexists. split.
      * rewrite Ht. rewrite <- !app_assoc. reflexivity.
      * rewrite !records_app, Hrec. reflexivity.
Qed.

(** X2.  Without [dry_run] and with a non-zero [log_interval], the
    progress records of a pass are exactly one print and one log entry for
    each batch whose index the interval divides, in order, each showing
    the loss of that batch alone and not the running sum. *)
Theorem progress_is_reported_at_multiples_of_interval
    (args : Args) (dev : device) (rate : Q) (bs : list (list example))
    (epoch : Z) (w : World) :
  log_interval args <> 0%Z -> dry_run args = false ->
  exists t,
    trace (fst (train_pass args dev rate bs epoch w)) = trace w ++ t
    /\ records t =
       progress_records (log_interval args) epoch 0
         (batch_losses rate (net w) bs).
Proof.
  intros Hli Hdry.
  destruct (train_loop_records args dev rate epoch Hli Hdry bs 0%Z 0
              (mkWorld (net w) (net_device w) (history w)
                 (trace w ++ [EvTrainMode])))
    as [t [Ht Hrec]].
  cbn [net net_device history trace] in Ht, Hrec.
  exists ([EvTrainMode] ++ t). split.
  - unfold train_pass. erewrite bind_ok by (unfold emit; reflexivity).
    unfold bind at 1.
    destruct (train_loop args dev rate epoch 0 bs 0 _) as [w1 [tl|x|x]];
      cbn [fst] in *; try (rewrite Ht; now rewrite <- app_assoc).
    unfold append_train_loss, bind, get_history, set_history, ret.
    cbn [fst trace]. rewrite Ht. now rewrite <- app_assoc.
  - rewrite records_app, Hrec. reflexivity.
Qed.

End TrainMore.

(** ** More on the evaluation pass *)

Section TestMore.

Context `{C : Collaborators}.

Lemma argmax_rows_count p (b : list example) :
  forall pred,
    argmax_rows (map (forward_eval p) b) = Some pred ->
    count_eq pred (map label b) = hits p b.
Proof.
  induction b as [|a b IH]; intros pred H.
  - cbn in H. now injection H as <-.
  - cbn [map argmax_rows] in H.
    destruct (argmax (forward_eval p a)) as [i|] eqn:Ei; [|discriminate].
    destruct (argmax_rows (map (forward_eval p) b)) as [pred'|];
      [|discriminate].
    injection H as <-. specialize (IH pred' eq_refl).
    unfold count_eq, hits in *. cbn [map combine filter fst snd].
    unfold hit at 1. rewrite Ei.
    destruct (Z.of_nat i =? label a)%Z; cbn [length]; lia.
Qed.

(** When the loop of [test] returns, its count is the number of hits. *)
Lemma test_loop_count dev :
  forall bs i tl c w w' l c',
    test_loop dev i bs tl c w = (w', Ok (l, c')) ->
    c' = (c + hits (net w) (concat bs))%Z.
Proof.
  induction bs as [|b rest IH]; intros i tl c w w' l c' H.
  - cbn in H. injection H as _ _ <-. cbn. unfold hits. cbn. lia.
  - cbn [test_loop concat] in H.
    unfold bind at 1 in H. unfold emit at 1 in H.
    unfold bind at 1 in H. unfold get_net at 1 in H.
    cbn [net net_device history trace] in H.
    unfold bind at 1 in H. unfold emit at 1 in H.
    cbn [net net_device history trace] in H.
    unfold bind at 1 in H. unfold emit at 1 in H.
    cbn [net net_device history trace] in H.
    destruct (argmax_rows (map (forward_eval (net w)) b)) as [pred|] eqn:Ep;
      [|discriminate].
    apply IH in H. cbn [net] in H.
    rewrite (argmax_rows_count _ _ _ Ep) in H. cbn [concat].
    rewrite hits_app. lia.
Qed.

Lemma hits_bounds p ds : (0 <= hits p ds <= Z.of_nat (length ds))%Z.
Proof.
  unfold hits. pose proof (filter_length_le (hit p) ds). lia.
Qed.

(** X3.  Whenever [test] returns, the accuracy it appends lies between 0
    and 1. *)
Theorem recorded_accuracy_is_a_fraction
    (dev : device) (ds : list example) (bsz : Z) (w w' : World) :
  (0 < bsz)%Z ->
  test dev (mkLoader ds bsz false) w = (w', Ok tt) ->
  exists acc,
    test_acc (history w') = test_acc (history w) ++ [acc]
    /\ 0 <= acc <= 1.
Proof.
  intros Hb H. unfold test in H.
  apply bind_ok_inv in H. destruct H as [w0 [u [H0 H]]].
  unfold emit in H0. injection H0 as <- _.
  apply bind_ok_inv in H. destruct H as [w1 [[l c] [Hloop H]]].
  pose proof (test_loop_keeps dev (batches (mkLoader ds bsz false) 0)
                0%Z 0 0%Z
                (mkWorld (net w) (net_device w) (history w)
                   (trace w ++ [EvEvalMode]))) as K.
  rewrite Hloop in K. cbn [fst history] in K.
  apply test_loop_count in Hloop. cbn [net] in Hloop.
  rewrite concat_batches in Hloop by exact Hb. cbn [Z.add] in Hloop.
  cbn [loader_dataset fst snd] in H.
  destruct (Z.of_nat (length ds) =? 0)%Z eqn:En; [discriminate|].
  apply Z.eqb_neq in En.
  unfold append_test_loss, append_test_acc, bind, emit, get_history,
    set_history, ret in H.
  cbn [net net_device history trace train_loss test_loss test_acc] in H.
  injection H as <-. cbn [history test_acc]. rewrite K.
  eexists. split; [reflexivity|].
  pose proof (hits_bounds (net w) ds) as [Hlo Hhi]. subst c.
  assert (Hn : 0 < inject_Z (Z.of_nat (length ds))).
  { change 0 with (inject_Z 0). rewrite <- Zlt_Qlt. lia. }
  split.
  - apply Qle_shift_div_l; [exact Hn|]. rewrite Qmult_0_l.
    change 0 with (inject_Z 0). now rewrite <- Zle_Qle.
  - apply Qle_shift_div_r; [exact Hn|]. rewrite Qmult_1_l.
    now rewrite <- Zle_Qle.
Qed.

Lemma test_loop_emits P dev bs :
  (forall i, P (EvToDevice dev i)) -> P EvForward -> P EvLoss ->
  forall i tl c, emits P (test_loop dev i bs tl c).
Proof.
  intros H1 H2 H3.
  induction bs as [|b rest IH]; intros i tl c; cbn [test_loop].
  - apply emits_ret.
  - apply emits_bind; [now apply emits_emit|intros _].
    apply emits_bind; [apply emits_get_net|intro p].
    apply emits_bind; [now apply emits_emit|intros _].
    apply emits_bind; [now apply emits_emit|intros _].
    destruct (argmax_rows _); [apply IH|apply emits_raise].
Qed.

Lemma test_loop_keeps_net dev bs :
  forall i tl c, keeps_net (test_loop dev i bs tl c).
Proof.
  induction bs as [|b rest IH]; intros i tl c; cbn [test_loop].
  - apply keeps_net_ret.
  - keeps_net. destruct (argmax_rows _); [apply IH|apply keeps_net_raise].
Qed.

(** X4.  However it ends, on whatever loader, [test] leaves the
    parameters of the network as they were and performs no gradient
    reset, no backward pass, no optimizer step and no switch to training
    mode. *)
Theorem test_never_updates_the_network
    (dev : device) (loader : DataLoader) (w : World) :
  net (fst (test dev loader w)) = net w
  /\ exists t,
       trace (fst (test dev loader w)) = trace w ++ t
       /\ Forall (fun ev => is_update ev = false) t.
Proof.
  split.
  - revert w. change (keeps_net (test dev loader)).
    unfold test, append_test_loss, append_test_acc. keeps_net.
    apply test_loop_keeps_net.
  - revert w.
    change (emits (fun ev => is_update ev = false) (test dev loader)).
    unfold test, append_test_loss, append_test_acc. emits.
    apply test_loop_emits; reflexivity.
Qed.

Lemma train_loop_returns args dev rate epoch :
  log_interval args <> 0%Z ->
  forall bs i acc w,
  exists w1 tl, train_loop args dev rate epoch i bs acc w = (w1, Ok tl).
Proof.
  intro Hli.
  assert (E0 : (log_interval args =? 0)%Z = false) by now apply Z.eqb_neq.
  induction bs as [|b rest IH]; intros i acc w.
  - now exists w, acc.
  - cbn [train_loop].
    rewrite (bind_ok _ _ _ _ _ (train_batch_run dev rate i b w)), E0.
    destruct (i mod log_interval args =? 0)%Z; [|apply IH].
    unfold bind at 1 2. unfold emit at 1 2.
    destruct (dry_run args); [|apply IH]. unfold ret. eauto.
Qed.

(** X5.  With an empty test split (and a non-zero [log_interval]) an
    epoch does not complete: the training pass runs in full and its loss is
    appended to the history, then [test] divides by the size of the split
    and raises.  The history is left with one more training loss than test
    losses and accuracies, and the scheduler is not stepped. *)
Theorem empty_test_split_fails_after_training
    (e : Env) (args : Args) (train_loader : DataLoader) (bsz : Z)
    (sch : Scheduler.State) (epoch : Z) (w : World) :
  log_interval args <> 0%Z ->
  exists w1 tl,
    train args (train_device e args) (Scheduler.lr sch) train_loader epoch w
    = (w1, Ok tl)
    /\ epoch_body e args train_loader (mkLoader [] bsz false) sch epoch w
       = (mkWorld (net w1) (net_device w1) (history w1)
            (trace w1 ++ [EvEvalMode]),
          Raise ZeroDivisionError)
    /\ history w1 =
       mkHistory (train_loss (history w) ++ [tl]) (test_loss (history w))
         (test_acc (history w)).
Proof.
  intro Hli.
  destruct (train_loop_returns args (train_device e args) (Scheduler.lr sch)
              epoch Hli (batches train_loader epoch) 0%Z 0
              (mkWorld (net w) (net_device w) (history w)
                 (trace w ++ [EvTrainMode])))
    as [w1 [tl Hloop]].
  pose proof (train_loop_keeps args (train_device e args) (Scheduler.lr sch)
                epoch (batches train_loader epoch) 0%Z 0
                (mkWorld (net w) (net_device w) (history w)
                   (trace w ++ [EvTrainMode]))) as K.
  rewrite Hloop in K. cbn [fst history] in K.
  assert (Htrain :
            train args (train_device e args) (Scheduler.lr sch) train_loader
              epoch w
            = (mkWorld (net w1) (net_device w1)
                 (mkHistory (train_loss (history w1) ++ [tl])
                    (test_loss (history w1)) (test_acc (history w1)))
                 (trace w1),
               Ok tl)).
  { unfold train, train_pass.
    erewrite bind_ok by (unfold emit; reflexivity).
    rewrite (bind_ok _ _ _ _ _ Hloop).
    unfold append_train_loss, bind, get_history, set_history, ret.
    reflexivity. }
  eexists. exists tl. split; [exact Htrain|]. split.
  - unfold epoch_body. rewrite (bind_ok _ _ _ _ _ Htrain).
    unfold test, batches. cbn [loader_shuffle loader_dataset length chunks].
    unfold bind, emit, ret, raise. cbn. reflexivity.
  - cbn [history]. now rewrite K.
Qed.

End TestMore.

(** ** More on the driver *)

Section MainMore.

Context `{C : Collaborators}.

(** *** The timing harness with an accelerator *)

Lemma time_samples_cuda n w :
  time_samples Cuda n w =
  (mkWorld (net w) (net_device w) (history w)
     (trace w ++ concat (repeat [EvForward; EvSynchronize] n)),
   Ok tt).
Proof.
  revert w. induction n as [|n IH]; intro w; cbn [time_samples repeat concat].
  - unfold ret. now rewrite app_nil_r, world_eta.
  - unfold bind, emit. cbn [device_eqb]. rewrite IH.
    cbn [net net_device history trace]. now rewrite <- !app_assoc.
Qed.

Lemma time_on_cuda e args w :
  cuda_available e = true -> testset e (dataset args) <> [] ->
  time_on e args Cuda w =
  (mkWorld (net w) (net_device w) (history w)
     (trace w ++ cuda_timing (net_device w)
                   (length (testset e (dataset args)))),
   Ok tt).
Proof.
  intros Hc Hne. unfold time_on.
  assert (En : (Z.of_nat (length (testset e (dataset args))) =? 0)%Z = false).
  { apply Z.eqb_neq. destruct (testset e (dataset args));
      [congruence|cbn; lia]. }
  rewrite En, Hc. cbn [device_eqb andb negb].
  unfold bind at 1. unfold emit at 1.
  unfold bind at 1. unfold get_device at 1.
  cbn [net net_device history trace].
  unfold bind at 1. unfold emit at 1. cbn [net net_device history trace].
  unfold bind at 1. unfold emit at 1. cbn [net net_device history trace].
  unfold bind at 1. unfold set_device at 1.
  cbn [net net_device history trace].
  unfold bind at 1. unfold emit at 1. cbn [net net_device history trace].
  unfold bind at 1. unfold emit at 1. cbn [net net_device history trace].
  unfold bind at 1. unfold emit at 1. cbn [net net_device history trace].
  unfold bind at 1. unfold emit at 1. cbn [net net_device history trace].
  unfold bind at 1. unfold emit at 1. cbn [net net_device history trace].
  unfold bind at 1. rewrite time_samples_cuda.
  cbn [net net_device history trace].
  unfold bind, emit, set_device, ret. cbn [net net_device history trace].
  unfold cuda_timing. rewrite <- !app_assoc. reflexivity.
Qed.

(** X6.  With [calc_time] set, an accelerator present and a test set that
    is not empty, the harness times the CPU and then the accelerator: on
    each it runs one warm-up call and one call per test example, each call
    on the accelerator being followed by a synchronisation, and it puts
    the network back on the device it came from.  The network and the
    history are as before. *)
Theorem timing_covers_both_backends_and_restores_device
    (e : Env) (args : Args) (w : World) :
  calc_time args = true -> cuda_available e = true ->
  testset e (dataset args) <> [] ->
  calc_times e args w =
  (mkWorld (net w) (net_device w) (history w)
     (trace w
      ++ cpu_timing (net_device w) (length (testset e (dataset args)))
      ++ cuda_timing (net_device w) (length (testset e (dataset args)))),
   Ok tt).
Proof.
  intros Hcalc Hcuda Hne. unfold calc_times. rewrite Hcalc.
  cbn [for_each_device].
  rewrite (bind_ok _ _ _ _ _ (time_on_cpu e args w Hne)).
  erewrite bind_ok by (apply time_on_cuda; assumption).
  unfold ret. cbn [net net_device history trace]. now rewrite <- app_assoc.
Qed.

(** *** The loaders *)

Lemma load_run e args w :
  (0 < batch_size args)%Z -> (0 < test_batch_size args)%Z ->
  load e args w =
  (mkWorld (net w) (net_device w) (history w)
     (trace w ++ [EvLoadData (dataset args); EvGenerateTrain;
                  EvGenerateTest]),
   Ok (mkLoader (trainset e (dataset args)) (batch_size args)
         (use_cuda e args),
       mkLoader (testset e (dataset args)) (test_batch_size args) false)).
Proof.
  intros Hb Ht. unfold load, make_loader.
  assert (E1 : (batch_size args <=? 0)%Z = false) by (apply Z.leb_gt; lia).
  assert (E2 : (test_batch_size args <=? 0)%Z = false)
    by (apply Z.leb_gt; lia).
  rewrite E1, E2. unfold bind, emit, ret.
  cbn [net net_device history trace]. now rewrite <- !app_assoc.
Qed.

(** X7.  The training loader shuffles exactly when training runs on the
    accelerator; the test loader never does.  So with [--no-cuda], or
    without an accelerator, every epoch iterates over the same batches,
    which are the training set in its stored order cut into slices; no
    example is dropped. *)
Theorem training_is_shuffled_only_on_the_accelerator
    (e : Env) (args : Args) (w : World) :
  (0 < batch_size args)%Z -> (0 < test_batch_size args)%Z ->
  exists w' train_loader test_loader,
    load e args w = (w', Ok (train_loader, test_loader))
    /\ loader_shuffle train_loader = use_cuda e args
    /\ loader_shuffle test_loader = false
    /\ concat (batches test_loader 0) = testset e (dataset args)
    /\ (no_cuda args = true \/ cuda_available e = false ->
        forall epoch,
          batches train_loader epoch = batches train_loader 0
          /\ concat (batches train_loader epoch)
             = trainset e (dataset args)).
Proof.
  intros Hb Ht. do 3 eexists. split; [now apply load_run|].
  cbn [loader_shuffle]. split; [reflexivity|]. split; [reflexivity|].
  split; [now apply concat_batches|].
  intros Hcpu epoch.
  assert (U : use_cuda e args = false).
  { unfold use_cuda. destruct Hcpu as [-> | ->]; [reflexivity|].
    now destruct (no_cuda args). }
  rewrite U. split; [reflexivity|].
  change (batches (mkLoader (trainset e (dataset args)) (batch_size args)
                     false) epoch)
    with (batches (mkLoader (trainset e (dataset args)) (batch_size args)
                     false) 0).
  now apply concat_batches.
Qed.

(** *** A run without epochs *)

Lemma probe_run e args w :
  probe e args w =
  (mkWorld (net w) (net_device w) (history w)
     (trace w ++ probe_events e args),
   Ok tt).
Proof.
  unfold probe, probe_events, use_cuda.
  destruct (cuda_available e), (no_cuda args); cbn [negb andb];
    unfold bind, emit, ret; cbn [net net_device history trace];
    now rewrite <- ?app_assoc.
Qed.

Lemma build_run e args w :
  0 <= lr args -> gamma args < 1 ->
  build e args w =
  (mkWorld (fresh_net e (dataset args)) (train_device e args) (history w)
     (trace w
      ++ (if cuda_available e then [EvPrint MsgCudaInfo] else [])
      ++ [EvPrint MsgRule; EvPrint MsgCudaDebug; EvBuildModel;
          EvModelTo (train_device e args);
          EvPrint (MsgParameterDevice (train_device e args));
          EvBuildOptimizer; EvBuildScheduler]),
   Ok (Scheduler.mkState (lr args) None 0 0 0)).
Proof.
  intros Hlr Hg. unfold build, Scheduler.init.
  assert (E1 : Qltb (lr args) 0 = false) by now apply Qltb_ge.
  assert (E2 : Qle_bool 1 (Scheduler.factor
                             (Scheduler.train_config (gamma args))) = false).
  { cbn [Scheduler.factor Scheduler.train_config].
    destruct (Qle_bool 1 (gamma args)) eqn:E; [|reflexivity].
    apply Qle_bool_iff in E. lra. }
  rewrite E1, E2.
  destruct (cuda_available e);
    unfold bind, emit, set_net, set_device, ret;
    cbn [net net_device history trace]; now rewrite <- ?app_assoc.
Qed.

(** X8.  With a supported dataset, valid sizes and rates, and a number of
    epochs that is zero or negative, the program builds everything, trains
    nothing, and fails in the figure on the empty accuracy series: no
    checkpoint is written although [save_model] is set, and no optimizer
    step is taken. *)
Theorem no_epochs_no_checkpoint
    (e : Env) (argv : list cli_opt) (args : Args) :
  parse_args argv = inl args ->
  dataset args = 0%Z \/ dataset args = 1%Z \/ dataset args = 2%Z ->
  (0 < batch_size args)%Z -> (0 < test_batch_size args)%Z ->
  0 <= lr args -> gamma args < 1 ->
  (epochs args <= 0)%Z ->
  program e argv =
  (mkWorld (fresh_net e (dataset args)) (train_device e args) history0
     ([EvMakedir (savedir e);
       EvLogOpen (path_join e (savedir e) "train.log")]
      ++ probe_events e args ++ setup_events e args ++ [EvPlot]),
   Raise ValueError)
  /\ (forall p, ~ In (EvSaveCheckpoint p) (trace (fst (program e argv))))
  /\ ~ In EvOptimizerStep (trace (fst (program e argv))).
Proof.
  intros Hparse Hds Hb Ht Hlr Hg Hep.
  assert (Hrun :
    program e argv =
    (mkWorld (fresh_net e (dataset args)) (train_device e args) history0
       ([EvMakedir (savedir e);
         EvLogOpen (path_join e (savedir e) "train.log")]
        ++ probe_events e args ++ setup_events e args ++ [EvPlot]),
     Raise ValueError)).
  { unfold program, main. rewrite Hparse.
    erewrite bind_ok by (unfold module_init, bind, emit; reflexivity).
    unfold main_body.
    rewrite (bind_ok _ _ _ _ _ (probe_run e args _)).
    erewrite bind_ok by (now apply select_dataset_supported).
    rewrite (bind_ok _ _ _ _ _ (load_run e args _ Hb Ht)).
    rewrite (bind_ok _ _ _ _ _ (build_run e args _ Hlr Hg)).
    unfold train_and_report, epoch_range.
    replace (Z.to_nat (epochs args)) with 0%nat by lia.
    cbn [seq map epoch_loop].
    erewrite bind_ok by (unfold ret; reflexivity).
    unfold report. unfold bind at 1. unfold bind at 1. unfold emit at 1.
    unfold bind at 1. unfold get_history at 1.
    cbn [net net_device history trace world0 history0 test_acc].
    unfold raise, setup_events. cbn [app]. rewrite <- !app_assoc.
    reflexivity. }
  split; [exact Hrun|]. rewrite Hrun. cbn [fst trace].
  unfold probe_events, setup_events, use_cuda.
  split; [intro p|];
    destruct (cuda_available e), (no_cuda args); cbn;
    intuition discriminate.
Qed.

(** *** The scheduler in the epoch loop *)

Lemma scheduler_step_run args sch m w :
  exists w',
    scheduler_step args sch m w =
    (w', Ok (Scheduler.step (Scheduler.train_config (gamma args)) sch m)).
Proof.
  unfold scheduler_step.
  destruct (Qltb _ _); unfold bind, emit, ret; eauto.
Qed.

Lemma epoch_body_feeds_scheduler e args train_loader test_loader sch epoch
    w w' sch' :
  epoch_body e args train_loader test_loader sch epoch w = (w', Ok sch') ->
  exists tl,
    train_loss (history w') = train_loss (history w) ++ [tl]
    /\ sch' = Scheduler.step (Scheduler.train_config (gamma args)) sch tl.
Proof.
  unfold epoch_body. intro H.
  apply bind_ok_inv in H. destruct H as [w1 [tl [Htrain H]]].
  apply bind_ok_inv in H. destruct H as [w2 [u [Htest Hstep]]].
  pose proof (train_pass_history args (train_device e args)
                (Scheduler.lr sch) (batches train_loader epoch) epoch w) as K1.
  unfold train in Htrain. rewrite Htrain in K1.
  pose proof (test_history (train_device e args) test_loader w1) as K2.
  rewrite Htest in K2. destruct K2 as [x [y K2]].
  pose proof (scheduler_step_keeps args sch tl w2) as K3.
  rewrite Hstep in K3. cbn [fst] in K3.
  destruct (scheduler_step_run args sch tl w2) as [w3 Hrun].
  rewrite Hrun in Hstep. injection Hstep as _ <-.
  exists tl. rewrite K3, K2, K1. now split.
Qed.

(** X9.  Over any completed stretch of epochs the scheduler has been
    stepped once per epoch, in order, with exactly the training losses
    that the history gained (never with a test loss): its final state is
    the run of the plateau policy over those losses, so the rate the next
    epoch would train with is not above the rate the stretch started
    with. *)
Theorem scheduler_is_fed_the_training_losses
    (e : Env) (args : Args) (train_loader test_loader : DataLoader)
    (range : list Z) (sch sch' : Scheduler.State) (w w' : World) :
  epoch_loop e args train_loader test_loader sch range w = (w', Ok sch') ->
  exists losses,
    length losses = length range
    /\ train_loss (history w') = train_loss (history w) ++ losses
    /\ sch' = Scheduler.run (Scheduler.train_config (gamma args)) sch losses
    /\ Scheduler.lr sch' <= Scheduler.lr sch.
Proof.
  revert sch w. induction range as [|epoch rest IH]; intros sch w H.
  - cbn in H. injection H as <- <-. exists [].
    rewrite app_nil_r. repeat split. cbn. lra.
  - cbn [epoch_loop] in H. apply bind_ok_inv in H.
    destruct H as [w1 [sch1 [Hbody Hrest]]].
    apply epoch_body_feeds_scheduler in Hbody.
    destruct Hbody as [tl [Hh ->]].
    destruct (IH _ _ Hrest) as [losses [Hlen [Hh' [Hs Hle]]]].
    exists (tl :: losses). split; [cbn; now rewrite Hlen|].
    split; [rewrite Hh', Hh; now rewrite <- app_assoc|].
    split; [exact Hs|].
    eapply Qle_trans; [exact Hle|]. apply step_lr_le. cbn. lra.
Qed.

(** *** Where batches go *)

Lemma emits_weaken {A} (P Q : event -> Prop) (m : M A) :
  (forall ev, P ev -> Q ev) -> emits P m -> emits Q m.
Proof.
  intros HPQ Hm w. destruct (Hm w) as [t [Ht Hall]]. exists t.
  split; [exact Ht|]. revert Hall. apply Forall_impl. exact HPQ.
Qed.

Lemma train_loop_goes args dev rate epoch bs :
  forall i acc,
    emits (batches_go_to dev) (train_loop args dev rate epoch i bs acc).
Proof.
  induction bs as [|b rest IH]; intros i acc; cbn [train_loop].
  - apply emits_ret.
  - apply emits_bind; [unfold train_batch; emits|intro loss].
    repeat apply emits_if; emits; apply IH.
Qed.

Lemma epoch_loop_goes e args train_loader test_loader range :
  forall sch,
    emits (batches_go_to (train_device e args))
      (epoch_loop e args train_loader test_loader sch range).
Proof.
  induction range as [|epoch rest IH]; intro sch; cbn [epoch_loop].
  - apply emits_ret.
  - apply emits_bind; [|intro sch1; apply IH].
    unfold epoch_body, train, train_pass, test, scheduler_step,
      append_train_loss, append_test_loss, append_test_acc.
    emits.
    + apply train_loop_goes.
    + apply test_loop_emits; try exact I. intro i. exact eq_refl.
Qed.

(** X10.  In the epoch loop every batch, of the training pass and of the
    evaluation pass alike, is moved to the one device chosen at start-up.
    With [--no-cuda], or without an accelerator, no batch is ever moved to
    the accelerator. *)
Theorem batches_go_to_the_training_device
    (e : Env) (args : Args) (train_loader test_loader : DataLoader)
    (range : list Z) (sch : Scheduler.State) (w : World) :
  exists t,
    trace (fst (epoch_loop e args train_loader test_loader sch range w))
    = trace w ++ t
    /\ (forall d i, In (EvToDevice d i) t -> d = train_device e args)
    /\ (no_cuda args = true \/ cuda_available e = false ->
        forall i, ~ In (EvToDevice Cuda i) t).
Proof.
  destruct (epoch_loop_goes e args train_loader test_loader range sch w)
    as [t [Ht Hall]].
  exists t. split; [exact Ht|].
  assert (G : forall d i, In (EvToDevice d i) t -> d = train_device e args).
  { intros d i Hin. rewrite Forall_forall in Hall.
    exact (Hall _ Hin). }
  split; [exact G|].
  intros Hcpu i Hin. apply G in Hin. unfold train_device, use_cuda in Hin.
  destruct Hcpu as [H|H]; rewrite H in Hin;
    [|destruct (no_cuda args)]; discriminate.
Qed.

(** *** What every run does first, and how a run can exit *)

Lemma main_body_grows e args : emits (fun _ => True) (main_body e args).
Proof.
  unfold main_body.
  apply emits_bind; [unfold probe; emits|intros _].
  apply emits_bind; [unfold select_dataset; emits|intros _].
  apply emits_bind; [unfold load, make_loader; emits|intro loaders].
  apply emits_bind.
  { unfold build. emits. destruct (Scheduler.init _ _); emits. }
  intro sch. unfold train_and_report.
  apply emits_bind.
  { eapply emits_weaken; [|apply epoch_loop_goes]. auto. }
  intros _. apply emits_bind.
  { unfold report. emits. destruct (test_acc _); emits. }
  intros _. apply emits_bind; [unfold save_checkpoint; emits|intros _].
  apply calc_times_grows.
Qed.

(** X11.  Every run, whatever its command line, first creates the run
    directory [experiments/<time>] and opens the log file in it.  A command
    line that the parser refuses (or that asks for the usage) leaves with
    the parser's status having done nothing else. *)
Theorem every_run_creates_its_directory_first
    (e : Env) (argv : list cli_opt) :
  (exists t,
     trace (fst (program e argv)) =
     EvMakedir (savedir e)
     :: EvLogOpen (path_join e (savedir e) "train.log") :: t)
  /\ (forall status,
        parse_args argv = inr status ->
        program e argv =
        (mkWorld (fresh_net e 0) Cpu history0
           [EvMakedir (savedir e);
            EvLogOpen (path_join e (savedir e) "train.log")],
         Exit status)).
Proof.
  split.
  - unfold program.
    erewrite bind_ok by (unfold module_init, bind, emit; reflexivity).
    unfold main. destruct (parse_args argv) as [args|status].
    + match goal with |- context [main_body e args ?w1] =>
        destruct (main_body_grows e args w1) as [t [Ht _]] end.
      exists t. rewrite Ht. reflexivity.
    + exists []. reflexivity.
  - intros status Hparse. unfold program, main. rewrite Hparse.
    reflexivity.
Qed.

Lemma train_loop_no_exit S args dev rate epoch bs :
  forall i acc, exits_only S (train_loop args dev rate epoch i bs acc).
Proof.
  induction bs as [|b rest IH]; intros i acc; cbn [train_loop].
  - apply exits_only_ret.
  - apply exits_only_bind; [unfold train_batch; exits_only|intro loss].
    repeat apply exits_only_if; exits_only; apply IH.
Qed.

Lemma test_loop_no_exit S dev bs :
  forall i tl c, exits_only S (test_loop dev i bs tl c).
Proof.
  induction bs as [|b rest IH]; intros i tl c; cbn [test_loop].
  - apply exits_only_ret.
  - exits_only. destruct (argmax_rows _); [apply IH|apply exits_only_raise].
Qed.

Lemma epoch_loop_no_exit S e args train_loader test_loader range :
  forall sch,
    exits_only S (epoch_loop e args train_loader test_loader sch range).
Proof.
  induction range as [|epoch rest IH]; intro sch; cbn [epoch_loop].
  - apply exits_only_ret.
  - apply exits_only_bind; [|intro sch1; apply IH].
    unfold epoch_body, train, train_pass, test, scheduler_step,
      append_train_loss, append_test_loss, append_test_acc.
    exits_only.
    + apply train_loop_no_exit.
    + apply test_loop_no_exit.
Qed.

Lemma time_samples_no_exit S dev n : exits_only S (time_samples dev n).
Proof.
  induction n as [|n IH]; cbn [time_samples]; exits_only. exact IH.
Qed.

Lemma main_body_exits e args :
  exits_only
    (fun s => s = 1%Z /\ dataset args <> 0%Z /\ dataset args <> 1%Z
              /\ dataset args <> 2%Z)
    (main_body e args).
Proof.
  unfold main_body.
  apply exits_only_bind; [unfold probe; exits_only|intros _].
  apply exits_only_bind.
  { unfold select_dataset.
    destruct (Z.eqb_spec (dataset args) 0); [apply exits_only_ret|].
    destruct (Z.eqb_spec (dataset args) 1); [apply exits_only_ret|].
    destruct (Z.eqb_spec (dataset args) 2); [apply exits_only_ret|].
    apply exits_only_bind; [apply exits_only_emit|intros _].
    now apply exits_only_exit. }
  intros _.
  apply exits_only_bind; [unfold load, make_loader; exits_only|intro loaders].
  apply exits_only_bind.
  { unfold build. exits_only. destruct (Scheduler.init _ _); exits_only. }
  intro sch. unfold train_and_report.
  apply exits_only_bind; [apply epoch_loop_no_exit|intros _].
  apply exits_only_bind.
  { unfold report. exits_only. destruct (test_acc _); exits_only. }
  intros _.
  apply exits_only_bind; [unfold save_checkpoint; exits_only|intros _].
  unfold calc_times, for_each_device, time_on. exits_only;
    apply time_samples_no_exit.
Qed.

Lemma parse_args_status argv status :
  parse_args argv = inr status -> status = 0%Z \/ status = 2%Z.
Proof.
  unfold parse_args. destruct (before_help argv) as [seen help].
  destruct help; [intro H; injection H as <-; now left|].
  destruct (existsb is_dataset seen); cbn [negb].
  - destruct (existsb is_unrecognized seen); [|discriminate].
    intro H. injection H as <-. now right.
  - intro H. injection H as <-. now right.
Qed.

(** X12.  The program leaves through [sys.exit] in three ways only: with
    status 0 or 2 from the parser, or with status 1 on a dataset selector
    other than 0, 1 and 2.  Every other failure of a run is an uncaught
    exception, never an exit status chosen by the program. *)
Theorem exit_statuses
    (e : Env) (argv : list cli_opt) (w : World) (status : Z) :
  program e argv = (w, Exit status) ->
  (parse_args argv = inr status /\ (status = 0%Z \/ status = 2%Z))
  \/ (status = 1%Z /\
      exists args,
        parse_args argv = inl args /\ dataset args <> 0%Z
        /\ dataset args <> 1%Z /\ dataset args <> 2%Z).
Proof.
  unfold program.
  erewrite bind_ok by (unfold module_init, bind, emit; reflexivity).
  unfold main. destruct (parse_args argv) as [args|st] eqn:Hparse.
  - intro H. right.
    match type of H with main_body e args ?w1 = _ =>
      pose proof (main_body_exits e args w1 status) as K end.
    rewrite H in K. destruct (K eq_refl) as [-> Hds].
    split; [reflexivity|]. now exists args.
  - intro H. injection H as _ <-. left. split; [reflexivity|].
    now apply parse_args_status in Hparse.
Qed.

(** *** The path of the checkpoint *)

Lemma str_inj a b : str a = str b -> a = b.
Proof.
  unfold str. intro H. apply DecimalZ.to_int_inj.
  assert (N : forall z, NilZero.int_of_string
                          (NilZero.string_of_int (Z.to_int z))
                        = Some (Z.to_int z)).
  { intro z. apply NilZero.isi; destruct z; cbn; try discriminate;
      intro E; injection E as E;
      now apply DecimalPos.Unsigned.to_uint_nonnil in E. }
  pose proof (N a) as Na. rewrite H, N in Na. now injection Na.
Qed.

Lemma string_length_append (s t : string) :
  String.length (s ++ t) = (String.length s + String.length t)%nat.
Proof. induction s as [|c s IH]; cbn; [reflexivity|now rewrite IH]. Qed.

Lemma append_inj_l (s a b : string) :
  (s ++ a)%string = (s ++ b)%string -> a = b.
Proof.
  induction s as [|c s IH]; cbn; intro H; [exact H|].
  injection H as H. now apply IH.
Qed.

Lemma append_inj_r (t : string) :
  forall a b : string, (a ++ t)%string = (b ++ t)%string -> a = b.
Proof.
  induction a as [|c a IH]; intros [|d b] H; cbn in H.
  - reflexivity.
  - apply (f_equal String.length) in H. cbn in H.
    rewrite string_length_append in H. lia.
  - apply (f_equal String.length) in H. cbn in H.
    rewrite string_length_append in H. lia.
  - injection H as -> H. f_equal. now apply IH.
Qed.

(** X13.  The path of the checkpoint is decided by the dataset and the
    number of epochs alone.  Two runs on supported datasets write to the
    same file exactly when they agree on both, whatever their time of
    start, rates, batch sizes or other settings: such runs overwrite each
    other's checkpoint, and runs that differ in dataset or epochs never
    do. *)
Theorem checkpoint_path_depends_on_dataset_and_epochs
    (e : Env) (a1 a2 : Args) :
  (dataset a1 = 0%Z \/ dataset a1 = 1%Z \/ dataset a1 = 2%Z) ->
  (dataset a2 = 0%Z \/ dataset a2 = 1%Z \/ dataset a2 = 2%Z) ->
  (save_path e a1 = save_path e a2
   <-> dataset a1 = dataset a2 /\ epochs a1 = epochs a2).
Proof.
  intros H1 H2. unfold save_path, path_join, filename, dataset_name. split.
  - intro H. apply append_inj_l, append_inj_l in H.
    destruct H1 as [E1|[E1|E1]], H2 as [E2|[E2|E2]];
      rewrite E1, E2 in *; cbn [Z.eqb] in H; cbn in H;
      try discriminate;
      (split; [reflexivity|]);
      apply str_inj, (append_inj_r ".pt");
      injection H; auto.
  - intros [Ed Ee]. now rewrite Ed, Ee.
Qed.

End MainMore.

(** ** Concrete runs of the further properties *)

(** One batch with [--log-interval 0]. *)
Lemma zero_log_interval_fails_after_first_step_witness :
  let args := store (defaults 0) (OptLogInterval 0) in
  log_interval args = 0%Z /\
  snd (train_pass (C:=toy) args Cpu (1 # 100) [[(0, 0%Z)]] 1 toy_world)
  = Raise ZeroDivisionError.
Proof.
  split; [reflexivity|].
  rewrite (zero_log_interval_fails_after_first_step (C:=toy)
             (store (defaults 0) (OptLogInterval 0)) Cpu (1 # 100)
             [[(0, 0%Z)]] 1 toy_world eq_refl).
  reflexivity.
Defined.

(** Three batches with the default interval of 2: batches 0 and 2 are
    reported. *)
Lemma progress_is_reported_at_multiples_of_interval_witness :
  let args := defaults 0 in
  let bs := [[(0, 0%Z)]; [(0, 1%Z)]; [(0, 1%Z)]] in
  log_interval args <> 0%Z /\ dry_run args = false /\
  exists t,
    trace (fst (train_pass (C:=toy) args Cpu (1 # 100) bs 1 toy_world)) = t
    /\ length (records t) = 4%nat.
Proof.
  split; [discriminate|]. split; [reflexivity|].
  destruct (progress_is_reported_at_multiples_of_interval (C:=toy)
              (defaults 0) Cpu (1 # 100)
              [[(0, 0%Z)]; [(0, 1%Z)]; [(0, 1%Z)]] 1 toy_world)
    as [t [Ht Hrec]]; [discriminate|reflexivity|].
  exists t. split; [exact Ht|]. rewrite Hrec. reflexivity.
Defined.

(** The ten examples in batches of four. *)
Lemma recorded_accuracy_is_a_fraction_witness :
  let r := test (C:=toy) Cpu (@mkLoader toy ten_examples 4 false)
             toy_world in
  (0 < 4)%Z /\ snd r = Ok tt /\
  exists acc, test_acc (history (fst r)) = [acc] /\ 0 <= acc <= 1.
Proof.
  split; [reflexivity|]. split; [reflexivity|].
  assert (H : test (C:=toy) Cpu (@mkLoader toy ten_examples 4 false)
                toy_world
              = (fst (test (C:=toy) Cpu (@mkLoader toy ten_examples 4 false)
                        toy_world), Ok tt))
    by (vm_compute; reflexivity).
  destruct (recorded_accuracy_is_a_fraction (C:=toy) Cpu ten_examples 4
              toy_world _ eq_refl H) as [acc [Hacc Hb]].
  exists acc. split; [exact Hacc|exact Hb].
Defined.

(** An epoch of the small instance with its test split emptied. *)
Lemma empty_test_split_fails_after_training_witness :
  let args := defaults 0 in
  log_interval args <> 0%Z /\
  snd (epoch_body (C:=toy) (toy_env false) args
         (@mkLoader toy [(0, 0%Z); (0, 1%Z)] 2 false)
         (@mkLoader toy [] 1000 false)
         (Scheduler.mkState (1 # 100) None 0 0 0) 1 toy_world)
  = Raise ZeroDivisionError.
Proof.
  split; [discriminate|].
  destruct (empty_test_split_fails_after_training (C:=toy) (toy_env false)
              (defaults 0) (@mkLoader toy [(0, 0%Z); (0, 1%Z)] 2 false) 1000
              (Scheduler.mkState (1 # 100) None 0 0 0) 1 toy_world)
    as [w1 [tl [_ [Hbody _]]]]; [discriminate|].
  rewrite Hbody. reflexivity.
Defined.

(** Timing on a machine with an accelerator. *)
Lemma timing_covers_both_backends_and_restores_device_witness :
  let args := store (defaults 0) OptCalcTime in
  let r := calc_times (C:=toy) (toy_env true) args toy_world in
  calc_time args = true /\ cuda_available (toy_env true) = true /\
  snd r = Ok tt /\ net_device (fst r) = net_device toy_world.
Proof.
  split; [reflexivity|]. split; [reflexivity|].
  rewrite (timing_covers_both_backends_and_restores_device (C:=toy)
             (toy_env true) (store (defaults 0) OptCalcTime) toy_world);
    [split; reflexivity|reflexivity|reflexivity|discriminate].
Defined.

(** The loaders of the small instance on a machine without
    accelerator. *)
Lemma training_is_shuffled_only_on_the_accelerator_witness :
  let args := defaults 0 in
  (0 < batch_size args)%Z /\ (0 < test_batch_size args)%Z /\
  exists w' train_loader test_loader,
    load (C:=toy) (toy_env false) args toy_world
    = (w', Ok (train_loader, test_loader))
    /\ loader_shuffle train_loader = false
    /\ concat (batches train_loader 7)
       = trainset (toy_env false) (dataset args).
Proof.
  split; [reflexivity|]. split; [reflexivity|].
  destruct (training_is_shuffled_only_on_the_accelerator (C:=toy)
              (toy_env false) (defaults 0) toy_world)
    as [w' [tl [tsl [Hload [Hsh [_ [_ Hcpu]]]]]]];
    [reflexivity|reflexivity|].
  exists w', tl, tsl. split; [exact Hload|]. split; [exact Hsh|].
  apply (Hcpu (or_intror eq_refl) 7%Z).
Defined.

(** The small instance asked for no epoch at all. *)
Lemma no_epochs_no_checkpoint_witness :
  let argv := [OptDataset 0; OptEpochs 0] in
  (epochs (store (store (defaults 0) (OptDataset 0)) (OptEpochs 0)) <= 0)%Z
  /\ snd (program (C:=toy) (toy_env false) argv) = Raise ValueError.
Proof.
  split; [discriminate|].
  destruct (no_epochs_no_checkpoint (C:=toy) (toy_env false)
              [OptDataset 0; OptEpochs 0]
              (store (store (defaults 0) (OptDataset 0)) (OptEpochs 0)))
    as [Hrun _];
    [reflexivity|now left|reflexivity|reflexivity|discriminate|reflexivity
    |discriminate|].
  rewrite Hrun. reflexivity.
Defined.

(** Two epochs of the small instance. *)
Lemma scheduler_is_fed_the_training_losses_witness :
  let r := epoch_loop (C:=toy) (toy_env false) (defaults 0)
             (@mkLoader toy [(0, 0%Z); (0, 1%Z)] 2 false)
             (@mkLoader toy [(0, 0%Z); (0, 1%Z)] 1000 false)
             (Scheduler.mkState (1 # 100) None 0 0 0) [1%Z; 2%Z]
             toy_world in
  exists sch' losses,
    snd r = Ok sch'
    /\ length losses = 2%nat
    /\ train_loss (history (fst r)) = losses
    /\ Scheduler.lr sch' <= 1 # 100.
Proof.
  cbv zeta.
  destruct (epoch_loop (C:=toy) (toy_env false) (defaults 0)
              (@mkLoader toy [(0, 0%Z); (0, 1%Z)] 2 false)
              (@mkLoader toy [(0, 0%Z); (0, 1%Z)] 1000 false)
              (Scheduler.mkState (1 # 100) None 0 0 0) [1%Z; 2%Z]
              toy_world)
    as [w' [sch'|x|x]] eqn:E;
    [|vm_compute in E; discriminate|vm_compute in E; discriminate].
  destruct (scheduler_is_fed_the_training_losses (C:=toy) _ _ _ _ _ _ _ _ _ E)
    as [losses [Hlen [Hh [_ Hle]]]].
  exists sch', losses. split; [reflexivity|]. split; [exact Hlen|].
  split; [exact Hh|exact Hle].
Defined.

(** Two epochs of the small instance with [--no-cuda]. *)
Lemma batches_go_to_the_training_device_witness :
  let args := store (defaults 0) OptNoCuda in
  no_cuda args = true /\
  exists t,
    trace (fst (epoch_loop (C:=toy) (toy_env true) args
                  (@mkLoader toy [(0, 0%Z); (0, 1%Z)] 2 false)
                  (@mkLoader toy [(0, 0%Z); (0, 1%Z)] 1000 false)
                  (Scheduler.mkState (1 # 100) None 0 0 0) [1%Z; 2%Z]
                  toy_world))
    = trace toy_world ++ t
    /\ ~ In (EvToDevice Cuda 0) t.
Proof.
  split; [reflexivity|].
  destruct (batches_go_to_the_training_device (C:=toy) (toy_env true)
              (store (defaults 0) OptNoCuda)
              (@mkLoader toy [(0, 0%Z); (0, 1%Z)] 2 false)
              (@mkLoader toy [(0, 0%Z); (0, 1%Z)] 1000 false)
              [1%Z; 2%Z] (Scheduler.mkState (1 # 100) None 0 0 0) toy_world)
    as [t [Ht [_ Hcpu]]].
  exists t. split; [exact Ht|]. apply Hcpu. now left.
Defined.

(** A command line without [--dataset]. *)
Lemma every_run_creates_its_directory_first_witness :
  parse_args [OptEpochs 3] = inr 2%Z /\
  snd (program (C:=toy) (toy_env false) [OptEpochs 3]) = Exit 2 /\
  length (trace (fst (program (C:=toy) (toy_env false) [OptEpochs 3])))
  = 2%nat.
Proof.
  split; [reflexivity|].
  destruct (every_run_creates_its_directory_first (C:=toy) (toy_env false)
              [OptEpochs 3]) as [_ Husage].
  rewrite (Husage 2%Z eq_refl). split; reflexivity.
Defined.

(** The selector 7. *)
Lemma exit_statuses_witness :
  snd (program (C:=toy) (toy_env false) [OptDataset 7]) = Exit 1 /\
  exists args,
    parse_args [OptDataset 7] = inl args /\ dataset args <> 0%Z.
Proof.
  split; [reflexivity|].
  destruct (exit_statuses (C:=toy) (toy_env false) [OptDataset 7]
              (fst (program (C:=toy) (toy_env false) [OptDataset 7])) 1)
    as [[Hp _]|[_ [args [Hp [H0 _]]]]].
  - reflexivity.
  - discriminate.
  - now exists args.
Defined.

(** Two runs on dataset 1 for 199 epochs, at different rates and batch
    sizes. *)
Lemma checkpoint_path_depends_on_dataset_and_epochs_witness :
  let a1 := store (defaults 1) (OptLr (1 # 1000)) in
  let a2 := store (defaults 1) (OptBatchSize 8) in
  dataset a1 = 1%Z /\ dataset a2 = 1%Z /\
  save_path (toy_env false) a1 = save_path (toy_env false) a2.
Proof.
  split; [reflexivity|]. split; [reflexivity|].
  apply (checkpoint_path_depends_on_dataset_and_epochs (C:=toy)
           (toy_env false) (store (defaults 1) (OptLr (1 # 1000)))
           (store (defaults 1) (OptBatchSize 8))).
  - right. now left.
  - right. now left.
  - split; reflexivity.
Defined.

(** * The evaluation loss and the partition into batches *)




Section LossFacts.

Context `{C : Collaborators}.

(** The loss that [test] has added up when its loop returns: the same
    additions, in the same order, as [summed_loss_in] in exact
    arithmetic. *)
Lemma test_loop_loss dev :
  forall bs i tl c w w' l c',
    test_loop dev i bs tl c w = (w', Ok (l, c')) ->
    l = fold_left
          (fun acc b =>
             acc + criterion_sum (map (forward_eval (net w)) b) (map label b))
          bs tl.
Proof.
  induction bs as [|b rest IH]; intros i tl c w w' l c' H.
  - cbn in H. now injection H as _ <- _.
  - cbn [test_loop] in H.
    unfold bind at 1 in H. unfold emit at 1 in H.
    unfold bind at 1 in H. unfold get_net at 1 in H.
    cbn [net net_device history trace] in H.
    unfold bind at 1 in H. unfold emit at 1 in H.
    cbn [net net_device history trace] in H.
    unfold bind at 1 in H. unfold emit at 1 in H.
    cbn [net net_device history trace] in H.
    destruct (argmax_rows (map (forward_eval (net w)) b)); [|discriminate].
    apply IH in H. cbn [net] in H. exact H.
Qed.

(** What [test] records as average loss is [average_loss_in] in exact
    arithmetic, for the network under the current parameters. *)
Lemma test_records_average_loss dev loader w w' :
  test dev loader w = (w', Ok tt) ->
  exists x,
    average_loss_in exact_arithmetic (exact_net (net w)) loader = Some x
    /\ test_loss (history w') = test_loss (history w) ++ [x].
Proof.
  intro H. unfold test in H.
  apply bind_ok_inv in H. destruct H as [w0 [u [H0 H]]].
  unfold emit in H0. injection H0 as <- _.
  apply bind_ok_inv in H. destruct H as [w1 [[l c] [Hloop H]]].
  pose proof (test_loop_keeps dev (batches loader 0) 0%Z 0 0%Z
                (mkWorld (net w) (net_device w) (history w)
                   (trace w ++ [EvEvalMode]))) as K.
  rewrite Hloop in K. cbn [fst history] in K.
  apply test_loop_loss in Hloop. cbn [net] in Hloop.
  unfold average_loss_in.
  destruct (Z.of_nat (length (loader_dataset loader)) =? 0)%Z;
    [discriminate|].
  unfold append_test_loss, append_test_acc, bind, emit, get_history,
    set_history, ret in H.
  cbn [net net_device history trace train_loss test_loss test_acc fst snd]
    in H.
  injection H as <-. cbn [history test_loss]. rewrite K.
  eexists. split; [reflexivity|]. subst l. reflexivity.
Qed.

Section AnyArithmetic.

Variable A : Arithmetic.
Variable N : EvalNet A.

Hypothesis add_same : forall x y, add_batch A x y = add_total A x y.
Hypothesis add_assoc :
  forall x y z,
    add_total A x (add_total A y z) = add_total A (add_total A x y) z.
Hypothesis add_0_l : forall x, add_total A (num_zero A) x = x.
Hypothesis add_0_r : forall x, add_total A x (num_zero A) = x.

Variable scores : example -> list (num A).
Hypothesis rowwise : forall b, model_eval A N b = map scores b.






End AnyArithmetic.

End LossFacts.



